(** * TrendForge: indicator pipeline, headline matcher and sentiment scorer

    A shallow embedding of [App.py].  Text is a list of code points below
    256; pandas columns are lists of IEEE-style values over exact rationals
    (no rounding, no overflow), so that NaN, the two infinities and the sign
    of zero behave as they do in the float64 columns of the source.  Where
    rounding or overflow decides the outcome, the RSI lines are evaluated
    in binary64 itself ([Binary64]), and the properties of the exact
    columns that depend on the size of the prices are stated for
    [ordinary_prices].  The external collaborators (feed parser, sentiment
    model, market-data provider, coin catalogue) are section variables. *)

From Stdlib Require Import Ascii String.
From Stdlib Require Import List Bool Arith Lia.
From Stdlib Require Import ZArith QArith Lqa.
From Stdlib Require Floats.
Import ListNotations.

Local Open Scope nat_scope.
Local Open Scope list_scope.

(** ** Python text *)

Module Text.

Definition str := list ascii.

Definition lit (s : string) : str := list_ascii_of_string s.

Definition between (lo hi n : nat) : bool := (lo <=? n) && (n <=? hi).

(** [str.isspace] on one code point below 256: TAB..CR, FS..US, SPACE,
    NEL and NBSP. *)
Definition is_space (c : ascii) : bool :=
  let n := nat_of_ascii c in
  between 9 13 n || between 28 32 n || (n =? 133) || (n =? 160).

(** [str.lower] on one code point below 256: A..Z and the Latin-1
    capitals (all of C0..DE but the multiplication sign D7). *)
Definition lower_char (c : ascii) : ascii :=
  let n := nat_of_ascii c in
  if between 65 90 n || (between 192 222 n && negb (n =? 215))
  then ascii_of_nat (n + 32)
  else c.

Definition lower (s : str) : str := map lower_char s.

Fixpoint str_eqb (a b : str) : bool :=
  match a, b with
  | [], [] => true
  | x :: a', y :: b' => Ascii.eqb x y && str_eqb a' b'
  | _, _ => false
  end.

(** [x in xs] for a list of strings. *)
Definition mem (x : str) (xs : list str) : bool := existsb (str_eqb x) xs.

Fixpoint starts_with (p s : str) : bool :=
  match p, s with
  | [], _ => true
  | x :: p', y :: s' => Ascii.eqb x y && starts_with p' s'
  | _ :: _, [] => false
  end.

(** [sub in s] for strings. *)
Fixpoint contains (sub s : str) : bool :=
  starts_with sub s ||
  match s with
  | [] => false
  | _ :: s' => contains sub s'
  end.

Definition flush (cur : str) : list str :=
  match cur with
  | [] => []
  | _ :: _ => [cur]
  end.

(** [s.split()]: the maximal runs of non-whitespace, left to right;
    [cur] is the run being read. *)
Fixpoint split_from (cur s : str) : list str :=
  match s with
  | [] => flush cur
  | c :: s' =>
      if is_space c then flush cur ++ split_from [] s'
      else split_from (cur ++ [c]) s'
  end.

Definition split (s : str) : list str := split_from [] s.

Fixpoint lstrip (s : str) : str :=
  match s with
  | c :: s' => if is_space c then lstrip s' else s
  | [] => []
  end.

Definition rstrip (s : str) : str := rev (lstrip (rev s)).

(** [s.strip()] *)
Definition strip (s : str) : str := rstrip (lstrip s).

(** [xs[:n]] for a non-negative [n] is [firstn n xs]. *)

Definition sp : str := lit " ".

(** The f-string [f" {s} "]. *)
Definition padded (s : str) : str := sp ++ s ++ sp.

End Text.

Import Text.

(** ** float64 values over exact rationals *)

Module Float.

(** A float64 without rounding: a rational ([Fin 0] is +0.0), -0.0, an
    infinity with its sign, or NaN. *)
Inductive fval :=
| Fin (q : Q)
| NegZero
| Inf (neg : bool)
| NaN.

Definition Qltb (a b : Q) : bool := negb (Qle_bool b a).

Definition is_nan (x : fval) : bool :=
  match x with NaN => true | _ => false end.

Definition is_zero (x : fval) : bool :=
  match x with
  | Fin q => Qeq_bool q 0
  | NegZero => true
  | _ => false
  end.

(** The sign bit. *)
Definition sign (x : fval) : bool :=
  match x with
  | Fin q => Qltb q 0
  | NegZero => true
  | Inf neg => neg
  | NaN => false
  end.

(** The rational a finite value stands for. *)
Definition mag (x : fval) : Q :=
  match x with Fin q => q | _ => 0%Q end.

Definition zero (neg : bool) : fval := if neg then NegZero else Fin 0.

Definition fneg (x : fval) : fval :=
  match x with
  | Fin q => if Qeq_bool q 0 then NegZero else Fin (- q)
  | NegZero => Fin 0
  | Inf neg => Inf (negb neg)
  | NaN => NaN
  end.

Definition fadd (x y : fval) : fval :=
  match x, y with
  | NaN, _ | _, NaN => NaN
  | Inf a, Inf b => if Bool.eqb a b then Inf a else NaN
  | Inf a, _ => Inf a
  | _, Inf b => Inf b
  | NegZero, NegZero => NegZero
  | _, _ => Fin (mag x + mag y)
  end.

Definition fsub (x y : fval) : fval := fadd x (fneg y).

Definition fmul (x y : fval) : fval :=
  match x, y with
  | NaN, _ | _, NaN => NaN
  | Inf a, _ => if is_zero y then NaN else Inf (xorb a (sign y))
  | _, Inf b => if is_zero x then NaN else Inf (xorb (sign x) b)
  | _, _ =>
      if is_zero x || is_zero y then zero (xorb (sign x) (sign y))
      else Fin (mag x * mag y)
  end.

Definition fdiv (x y : fval) : fval :=
  match x, y with
  | NaN, _ | _, NaN => NaN
  | Inf _, Inf _ => NaN
  | Inf a, _ => Inf (xorb a (sign y))
  | _, Inf b => zero (xorb (sign x) b)
  | _, _ =>
      if is_zero y then
        if is_zero x then NaN else Inf (xorb (sign x) (sign y))
      else if is_zero x then zero (xorb (sign x) (sign y))
      else Fin (mag x / mag y)
  end.

(** Ordered comparison; [None] when an operand is NaN. *)
Definition fcompare (x y : fval) : option comparison :=
  match x, y with
  | NaN, _ | _, NaN => None
  | Inf a, Inf b =>
      Some (if Bool.eqb a b then Eq else if a then Lt else Gt)
  | Inf a, _ => Some (if a then Lt else Gt)
  | _, Inf b => Some (if b then Gt else Lt)
  | _, _ => Some (mag x ?= mag y)%Q
  end.

(** [x > y] and [x < y]: false on NaN. *)
Definition fgt (x y : fval) : bool :=
  match fcompare x y with Some Gt => true | _ => false end.

Definition flt (x y : fval) : bool :=
  match fcompare x y with Some Lt => true | _ => false end.

Definition of_nat (n : nat) : fval := Fin (inject_Z (Z.of_nat n)).

End Float.

Import Float.

(** ** pandas Series *)

Module Series.

Definition series := list fval.

Fixpoint diff_from (prev : fval) (s : series) : series :=
  match s with
  | [] => []
  | x :: s' => fsub x prev :: diff_from x s'
  end.

(** [s.diff()]: NaN first, then each value minus the one before. *)
Definition diff (s : series) : series :=
  match s with
  | [] => []
  | x :: s' => NaN :: diff_from x s'
  end.

(** [s.where(cond, other)]: keep a value where the condition holds. *)
Definition where_ (cond : fval -> bool) (other : fval) (s : series) : series :=
  map (fun x => if cond x then x else other) s.

Definition fsum (s : series) : fval := fold_left fadd s (Fin 0).

(** The [window] values ending at position [i]. *)
Definition window_at (window i : nat) (s : series) : series :=
  firstn window (skipn (i + 1 - window) s).

(** [s.rolling(window=w).mean()]: NaN until [w] observations are in the
    window, then their mean. *)
Definition rolling_mean (window : nat) (s : series) : series :=
  map (fun i =>
         if i + 1 <? window then NaN
         else if existsb is_nan (window_at window i s) then NaN
         else fdiv (fsum (window_at window i s)) (of_nat window))
      (seq 0 (length s)).

Definition neg (s : series) : series := map fneg s.

Fixpoint zip_with (f : fval -> fval -> fval) (a b : series) : series :=
  match a, b with
  | x :: a', y :: b' => f x y :: zip_with f a' b'
  | _, _ => []
  end.

Fixpoint ewm_from (alpha : Q) (prev : fval) (s : series) : series :=
  match s with
  | [] => []
  | x :: s' =>
      let y := fadd (fmul (Fin (1 - alpha)) prev) (fmul (Fin alpha) x) in
      y :: ewm_from alpha y s'
  end.

(** [s.ewm(span=n, adjust=False).mean()] on a column without missing
    values: seeded with the first value, then
    [y = (1 - alpha) * y_prev + alpha * x] with [alpha = 2 / (n + 1)]. *)
Definition ewm_mean (span : nat) (s : series) : series :=
  match s with
  | [] => []
  | x :: s' => x :: ewm_from (2 / inject_Z (Z.of_nat (span + 1))) x s'
  end.

(** [s.dropna()] *)
Definition dropna (s : series) : series :=
  filter (fun x => negb (is_nan x)) s.

End Series.

Import Series.

(** ** Exceptions *)

Inductive exn := IndexError.

Inductive result (A : Type) :=
| Ok (a : A)
| Raise (e : exn).

Arguments Ok {A} a.
Arguments Raise {A} e.

Definition bind {A B : Type} (m : result A) (k : A -> result B) : result B :=
  match m with
  | Ok a => k a
  | Raise e => Raise e
  end.

Notation "x <- m ;; k" := (bind m (fun x => k))
  (at level 61, m at next level, right associativity).

(** [s.iloc[-1]] *)
Definition iloc_last (s : series) : result fval :=
  match rev s with
  | x :: _ => Ok x
  | [] => Raise IndexError
  end.

(** ** Indicator engine *)

(** The DataFrame of [calculate_indicators]: the date index (nanoseconds
    since the epoch) and the columns. *)
Record frame := {
  f_index : list Z;
  f_timestamp : list Z;
  f_price : series;
  f_rsi : series;
  f_macd : series;
  f_signal : series
}.

(** [pd.to_datetime(ts, unit="ms")] as a nanosecond count. *)
Definition to_datetime_ms (ts : Z) : Z := (ts * 1000000)%Z.

(** [delta.where(delta > 0, 0).rolling(window=14).mean()] *)
Definition gain_of (delta : series) : series :=
  rolling_mean 14 (where_ (fun d => fgt d (Fin 0)) (Fin 0) delta).

(** [-delta.where(delta < 0, 0).rolling(window=14).mean()] *)
Definition loss_of (delta : series) : series :=
  neg (rolling_mean 14 (where_ (fun d => flt d (Fin 0)) (Fin 0) delta)).

(** [100 - (100 / (1 + rs))] *)
Definition rsi_of (rs : series) : series :=
  map (fun r => fsub (Fin 100) (fdiv (Fin 100) (fadd (Fin 1) r))) rs.

Definition calculate_indicators (prices : list (Z * Q)) : frame :=
  let timestamp := map fst prices in
  let price := map (fun p => Fin (snd p)) prices in
  let date := map to_datetime_ms timestamp in
  let delta := diff price in
  let gain := gain_of delta in
  let loss := loss_of delta in
  let rs := zip_with fdiv gain loss in
  let rsi := rsi_of rs in
  let exp1 := ewm_mean 12 price in
  let exp2 := ewm_mean 26 price in
  let macd := zip_with fsub exp1 exp2 in
  let signal := ewm_mean 9 macd in
  {| f_index := date; f_timestamp := timestamp; f_price := price;
     f_rsi := rsi; f_macd := macd; f_signal := signal |}.

(** The rolling mean gain and loss columns of the frame built from
    [prices] (the locals [gain] and [loss]). *)
Definition gain_column (prices : list (Z * Q)) : series :=
  gain_of (diff (map (fun p => Fin (snd p)) prices)).

Definition loss_column (prices : list (Z * Q)) : series :=
  loss_of (diff (map (fun p => Fin (snd p)) prices)).

(** ** Indicator interpreter *)

Inductive rsi_signal := Overbought | Oversold | RsiNeutral.
Inductive macd_signal := Bullish | Bearish | Sideways.

Definition rsi_rule (latest_rsi : fval) : rsi_signal :=
  if fgt latest_rsi (Fin 70) then Overbought
  else if flt latest_rsi (Fin 30) then Oversold
  else RsiNeutral.

Definition macd_rule (latest_macd latest_signal : fval) : macd_signal :=
  if fgt latest_macd latest_signal then Bullish
  else if flt latest_macd latest_signal then Bearish
  else Sideways.

(** The two lines [interpret_indicators] writes, or the exception it
    raises before writing. *)
Definition interpret_indicators (df : frame)
    : result (rsi_signal * macd_signal) :=
  latest_rsi <- iloc_last (dropna (f_rsi df)) ;;
  latest_macd <- iloc_last (dropna (f_macd df)) ;;
  latest_signal <- iloc_last (dropna (f_signal df)) ;;
  Ok (rsi_rule latest_rsi, macd_rule latest_macd latest_signal).

(** ** Headline matcher *)

(** A feed item with its title and link.  ([entry.title] raises
    AttributeError on an item that has none; such items are outside the
    model.) *)
Record entry := { e_title : str; e_link : str }.

(** A kept headline: [(title.strip(), link, source_name)]. *)
Definition headline := (str * str * str)%type.

(** [term in title_lower.split()[:6]] *)
Definition first6_term (term title_lower : str) : bool :=
  mem term (firstn 6 (split title_lower)).

(** [f" {term} " in f" {title_lower} "] *)
Definition word_term (term title_lower : str) : bool :=
  contains (padded term) (padded title_lower).

(** [any(term in title_lower.split()[:6] for term in query_terms)] *)
Definition first6_check (query_terms : list str) (title_lower : str) : bool :=
  existsb (fun term => first6_term term title_lower) query_terms.

(** [any(f" {term} " in f" {title_lower} " for term in query_terms)] *)
Definition word_check (query_terms : list str) (title_lower : str) : bool :=
  existsb (fun term => word_term term title_lower) query_terms.

(** The condition of the [if] in the loop of [fetch_rss_news]. *)
Definition keeps (coin_name ticker title : str) : bool :=
  let query_terms := [lower coin_name; lower ticker] in
  let title_lower := lower title in
  first6_check query_terms title_lower || word_check query_terms title_lower.

Definition headline_of (source_name : str) (e : entry) : headline :=
  (strip (e_title e), e_link e, source_name).

(** The loop of [fetch_rss_news] over [feed.entries]: one pass, appending
    each kept headline. *)
Definition scan_entries (entries : list entry)
    (coin_name ticker source_name : str) : list headline :=
  fold_left
    (fun headlines e =>
       if keeps coin_name ticker (e_title e)
       then headlines ++ [headline_of source_name e]
       else headlines)
    entries [].

(** The matching rule in the words of the specification. *)
Definition among_first6 (term title : str) : Prop :=
  exists k, k < 6 /\ nth_error (split (lower title)) k = Some (lower term).

Definition standalone_word (term title : str) : Prop :=
  exists before after,
    sp ++ lower title ++ sp = before ++ sp ++ lower term ++ sp ++ after.

Definition relevant (coin_name ticker title : str) : Prop :=
  (among_first6 coin_name title \/ among_first6 ticker title) \/
  (standalone_word coin_name title \/ standalone_word ticker title).

(** ** Asset identity *)

Record coin := { c_id : str; c_symbol : str; c_name : str }.

Definition PRIORITY_IDS : list (str * str) :=
  [ (lit "btc", lit "bitcoin"); (lit "eth", lit "ethereum");
    (lit "xrp", lit "ripple"); (lit "ada", lit "cardano");
    (lit "sol", lit "solana"); (lit "bnb", lit "binancecoin");
    (lit "doge", lit "dogecoin"); (lit "ltc", lit "litecoin");
    (lit "dot", lit "polkadot"); (lit "pol", lit "polygon");
    (lit "dash", lit "dash"); (lit "etc", lit "ethereum_classic") ].

Fixpoint dict_get (k : str) (d : list (str * str)) : option str :=
  match d with
  | [] => None
  | (k', v) :: d' => if str_eqb k k' then Some v else dict_get k d'
  end.

(** ** Sentiment rows and the page *)

(** [(title, label, score, url, source)] *)
Definition sentiment_row := (str * str * Q * str * str)%type.

Inductive chart_view :=
| ChartUnavailable
| ChartShown (df : frame) (summary : rsi_signal * macd_signal).

Inductive news_view :=
| NoNews
| NewsShown (rows : list sentiment_row).

(** What one run of the script shows: nothing before a ticker is typed,
    the general news after "Ticker not recognized", or the snapshot. *)
Inductive page :=
| Idle
| GeneralNews (rows : list sentiment_row)
| Snapshot (price : option (Q * Q)) (chart : chart_view) (news : news_view).

(** Python truthiness of a string and of a list. *)
Definition truthy {A : Type} (l : list A) : bool :=
  match l with [] => false | _ :: _ => true end.

Section Collaborators.

(** [feedparser.parse(url).entries] *)
Variable feedparser_parse : str -> list entry.

(** [sentiment_model(title)[0]] as [(label, score)]; [None] when the call
    or the access raises. *)
Variable sentiment_model : str -> option (str * Q).

(** The JSON list of [coins/list]. *)
Variable coins_list : list coin.

(** The market-data provider and the coin metadata. *)
Variable get_crypto_price : str -> option (Q * Q).
Variable get_crypto_chart : str -> list (Z * Q).
Variable get_coin_metadata : str -> str * str.

Definition fetch_rss_news (feed_url coin_name ticker source_name : str)
    : list headline :=
  scan_entries (feedparser_parse feed_url) coin_name ticker source_name.

Definition sources (coin_name : str) : list (str * str) :=
  [ (lit "Cointelegraph",
     lit "https://cointelegraph.com/rss/tag/" ++ lower coin_name);
    (lit "Bitcoin.com",
     lit "https://news.bitcoin.com/feed/?s=" ++ lower coin_name);
    (lit "Coindesk",
     lit "https://www.coindesk.com/search?query=" ++ lower coin_name) ].

(** ["rss" in url or "feed" in url] *)
Definition is_feed_url (url : str) : bool :=
  contains (lit "rss") url || contains (lit "feed") url.

Definition fetch_crypto_news (coin_name ticker : str) : list headline :=
  let headlines :=
    fold_left
      (fun headlines src =>
         let '(source_name, url) := src in
         if is_feed_url url
         then headlines ++ fetch_rss_news url coin_name ticker source_name
         else headlines)
      (sources coin_name) [] in
  firstn 5 headlines.

Definition UNKNOWN : str := lit "UNKNOWN".

Definition analyze_sentiment (headlines : list headline)
    : list sentiment_row :=
  fold_left
    (fun results h =>
       let '(title, url, source) := h in
       match sentiment_model title with
       | Some (label, score) =>
           results ++ [(title, label, score, url, source)]
       | None => results ++ [(title, UNKNOWN, 0%Q, url, source)]
       end)
    headlines [].

Definition find_id (p : coin -> bool) : option str :=
  match find p coins_list with
  | Some c => Some (c_id c)
  | None => None
  end.

Definition resolve_crypto_id (user_input : str) : option str :=
  let q := lower (strip user_input) in
  match dict_get q PRIORITY_IDS with
  | Some id => Some id
  | None =>
      match find_id (fun c => str_eqb (lower (c_symbol c)) q) with
      | Some id => Some id
      | None =>
          find_id (fun c => str_eqb (lower (c_id c)) q
                            || str_eqb (lower (c_name c)) q)
      end
  end.

(** The [if chart_data: ... else: st.warning(...)] block. *)
Definition chart_section (chart_data : list (Z * Q)) : result chart_view :=
  if truthy chart_data then
    let df := calculate_indicators chart_data in
    summary <- interpret_indicators df ;;
    Ok (ChartShown df summary)
  else Ok ChartUnavailable.

Definition news_section (symbol_id ticker_input : str) : news_view :=
  let meta := get_coin_metadata symbol_id in
  let headlines := fetch_crypto_news (fst meta) ticker_input in
  if truthy headlines then NewsShown (analyze_sentiment headlines)
  else NoNews.

(** The script body below the text input.  The one exception followed
    is the IndexError of [interpret_indicators]; failures of the HTTP
    calls and of malformed replies are outside the model. *)
Definition app (ticker_input : str) : result page :=
  if truthy ticker_input then
    match resolve_crypto_id ticker_input with
    | Some (c :: id) =>
        let symbol_id := c :: id in
        let price := get_crypto_price symbol_id in
        chart <- chart_section (get_crypto_chart symbol_id) ;;
        Ok (Snapshot price chart (news_section symbol_id ticker_input))
    | _ =>
        let headlines := fetch_crypto_news (lit "crypto") (lit "crypto") in
        Ok (GeneralNews (analyze_sentiment headlines))
    end
  else Ok Idle.

End Collaborators.

(** ** Inputs and predicates the properties are stated on *)

(** Every whitespace character of the text is the plain space U+0020. *)
Definition plain_spaces (s : str) : bool :=
  forallb (fun c => negb (is_space c) || Ascii.eqb c " "%char) s.

Definition TAB : ascii := ascii_of_nat 9.

Definition canada_title : str := lit "Canada eyes new ADA regulation".

(** The sequence of dates is strictly increasing. *)
Fixpoint strictly_ascending (l : list Z) : bool :=
  match l with
  | a :: ((b :: _) as l') => (a <? b)%Z && strictly_ascending l'
  | _ => true
  end.

(** The column holds at least one value that is not missing. *)
Definition has_value (s : series) : bool :=
  existsb (fun x => negb (is_nan x)) s.

(** The headlines of one source that the matcher keeps, in the order the
    feed lists them. *)
Definition matched (feedparser_parse : str -> list entry)
    (coin_name ticker : str) (src : str * str) : list headline :=
  map (headline_of (fst src))
      (filter (fun e => keeps coin_name ticker (e_title e))
              (feedparser_parse (snd src))).

(** The sources whose URL passes the feed gate, in their fixed order. *)
Definition fetched_sources (coin_name : str) : list (str * str) :=
  filter (fun src => is_feed_url (snd src)) (sources coin_name).

(** All matches: source by source in the fixed order, and within a source
    in discovery order. *)
Definition matched_pool (feedparser_parse : str -> list entry)
    (coin_name ticker : str) : list headline :=
  flat_map (matched feedparser_parse coin_name ticker)
           (fetched_sources coin_name).

(** The row [analyze_sentiment] owes one headline: the model's label and
    score, or UNKNOWN and 0.0 when the call fails. *)
Definition row_of (sentiment_model : str -> option (str * Q))
    (h : headline) : sentiment_row :=
  let '(title, url, source) := h in
  match sentiment_model title with
  | Some (label, score) => (title, label, score, url, source)
  | None => (title, UNKNOWN, 0%Q, url, source)
  end.

(** Sample price histories: [n] hourly points of a constant price, and
    of a price that rises by one each hour. *)
Definition flat (n : nat) : list (Z * Q) :=
  map (fun i => (Z.of_nat i * 3600000, 1%Q)%Z) (seq 0 n).

Definition rising (n : nat) : list (Z * Q) :=
  map (fun i => (Z.of_nat i * 3600000, inject_Z (Z.of_nat i))%Z) (seq 0 n).

(** Two points given latest first, and two points on one timestamp. *)
Definition unsorted_pair : list (Z * Q) := [(2%Z, 5%Q); (1%Z, 4%Q)].

Definition duplicate_pair : list (Z * Q) := [(1%Z, 4%Q); (1%Z, 5%Q)].

(** Collaborators that know nothing: empty feeds, a model that fails, an
    empty catalogue, no market data. *)
Definition no_feed (url : str) : list entry := [].
Definition no_model (title : str) : option (str * Q) := None.
Definition no_price (symbol_id : str) : option (Q * Q) := None.
Definition no_chart (symbol_id : str) : list (Z * Q) := [].
Definition bare_metadata (symbol_id : str) : str * str :=
  (symbol_id, symbol_id).

(** A finite value that is not negative, one that is not positive, and
    the two shapes of a mean loss: -0.0 or a positive number. *)
Definition nonneg_fin (x : fval) : Prop := exists q, x = Fin q /\ (0 <= q)%Q.
Definition nonpos_fin (x : fval) : Prop := exists q, x = Fin q /\ (q <= 0)%Q.
Definition loss_like (x : fval) : Prop :=
  x = NegZero \/ exists q, x = Fin q /\ (0 < q)%Q.
Definition rsi_formula (g l : fval) : fval :=
  fsub (Fin 100) (fdiv (Fin 100) (fadd (Fin 1) (fdiv g l))).

(** The shapes of a price and of a price difference. *)
Definition fin (x : fval) : Prop := exists q, x = Fin q.
Definition delta_like (x : fval) : Prop := x = NaN \/ fin x.

(** The value is a number between [lo] and [hi]. *)
Definition within (lo hi : Q) (x : fval) : Prop :=
  match x with
  | Fin q => (lo <= q /\ q <= hi)%Q
  | NegZero => (lo <= 0 /\ 0 <= hi)%Q
  | _ => False
  end.

(** The value is the number [q]. *)
Definition equals (x : fval) (q : Q) : Prop :=
  match x with
  | Fin p => (p == q)%Q
  | NegZero => (0 == q)%Q
  | _ => False
  end.

(** Neither NaN nor an infinity. *)
Definition finite (x : fval) : bool :=
  match x with Fin _ | NegZero => true | _ => false end.

(** The price column of the frame built from [prices]. *)
Definition price_column (prices : list (Z * Q)) : series :=
  map (fun p => Fin (snd p)) prices.

(** A price difference that is neither a gain nor a loss. *)
Definition unchanged (x : fval) : Prop :=
  x = NaN \/ exists q, x = Fin q /\ (q == 0)%Q.

(** Row [j] has the price of the row before it (row 0 has none before). *)
Definition same_as_before (prices : list (Z * Q)) (j : nat) : Prop :=
  match j with
  | 0 => True
  | S k =>
      match nth_error prices k, nth_error prices (S k) with
      | Some a, Some b => (snd b == snd a)%Q
      | _, _ => True
      end
  end.

(** No price changes inside the 14-row window that ends at row [i]. *)
Definition flat_window (prices : list (Z * Q)) (i : nat) : Prop :=
  forall j, i - 13 <= j -> j <= i -> same_as_before prices j.

(** The sum of the numbers of a column. *)
Definition total (s : series) : Q :=
  fold_right (fun x acc => (mag x + acc)%Q) 0%Q s.

(** ** The HTTP API (main.py) and the general news page (pages/News.py) *)

(** One object of the JSON list the news endpoint returns, and one block
    of the general news page. *)
Record news_item := {
  n_title : str;
  n_link : str;
  n_source : str;
  n_sentiment : str;
  n_score : Q
}.

Section Unguarded.

Variable feedparser_parse : str -> list entry.
Variable sentiment_model : str -> option (str * Q).

(** The loop over [feed.entries[:5]] of one source: each title goes to the
    model, outside any [try]; [None] when a call raises. *)
Fixpoint classify_entries (source : str) (entries : list entry)
    (headlines : list news_item) : option (list news_item) :=
  match entries with
  | [] => Some headlines
  | e :: rest =>
      match sentiment_model (e_title e) with
      | Some (label, score) =>
          classify_entries source rest
            (headlines
             ++ [{| n_title := e_title e; n_link := e_link e;
                    n_source := source; n_sentiment := label;
                    n_score := score |}])
      | None => None
      end
  end.

(** The loop over the feeds. *)
Fixpoint collect_feeds (feeds : list (str * str))
    (headlines : list news_item) : option (list news_item) :=
  match feeds with
  | [] => Some headlines
  | (source, url) :: rest =>
      match classify_entries source (firstn 5 (feedparser_parse url))
              headlines with
      | Some headlines' => collect_feeds rest headlines'
      | None => None
      end
  end.

(** The [feeds] of [get_news] in main.py. *)
Definition api_feeds (coin_name : str) : list (str * str) :=
  [ (lit "Cointelegraph",
     lit "https://cointelegraph.com/rss/tag/" ++ lower coin_name);
    (lit "Bitcoin.com",
     lit "https://news.bitcoin.com/feed/?s=" ++ lower coin_name) ].

(** [get_news] of main.py. *)
Definition get_news (coin_name : str) : option (list news_item) :=
  collect_feeds (api_feeds coin_name) [].

(** The feeds of pages/News.py and the rows the page shows. *)
Definition general_feeds : list (str * str) :=
  [ (lit "Cointelegraph", lit "https://cointelegraph.com/rss");
    (lit "Bitcoin.com", lit "https://news.bitcoin.com/feed/");
    (lit "Decrypt", lit "https://decrypt.co/feed");
    (lit "CryptoSlate", lit "https://cryptoslate.com/feed/") ].

Definition news_page : option (list news_item) :=
  collect_feeds general_feeds [].

End Unguarded.

(** ** Further predicates and sample inputs *)

(** The text holds no whitespace character. *)
Definition no_space (s : str) : bool := forallb (fun c => negb (is_space c)) s.

(** Whitespace neither leads nor trails the text: [strip] leaves it as
    it is on both ends. *)
Definition trimmed (s : str) : Prop := lstrip s = s /\ rstrip s = s.

(** The URL of the third source of [fetch_crypto_news]. *)
Definition coindesk_url (coin_name : str) : str :=
  lit "https://www.coindesk.com/search?query=" ++ lower coin_name.

(** The entries a run over [feeds] sends to the model, each with the
    name of its source. *)
Definition sent_to_model (feedparser_parse : str -> list entry)
    (feeds : list (str * str)) : list (str * entry) :=
  flat_map (fun f => map (pair (fst f)) (firstn 5 (feedparser_parse (snd f))))
           feeds.

Definition classified (sentiment_model : str -> option (str * Q))
    (se : str * entry) : bool :=
  match sentiment_model (e_title (snd se)) with
  | Some _ => true
  | None => false
  end.

(** The row reports the entry under the name of its source, with the
    label and score the model gave its title. *)
Definition shows (sentiment_model : str -> option (str * Q))
    (item : news_item) (se : str * entry) : Prop :=
  n_source item = fst se /\ n_title item = e_title (snd se)
  /\ n_link item = e_link (snd se)
  /\ sentiment_model (e_title (snd se))
     = Some (n_sentiment item, n_score item).

(** A price history that rises and falls: row [i] holds [i] when [i] is
    even and [2 * i] when it is odd. *)
Definition zigzag (n : nat) : list (Z * Q) :=
  map (fun i => (Z.of_nat i * 3600000,
                 inject_Z (Z.of_nat (if Nat.even i then i else 2 * i)))%Z)
      (seq 0 n).

(** [x] is the last value of the column that is not missing. *)
Definition latest (s : series) (x : fval) : Prop :=
  exists before after,
    s = before ++ x :: after
    /\ is_nan x = false /\ forallb is_nan after = true.

(** The lowercased, stripped form of the input that the resolver compares. *)
Definition query_of (user_input : str) : str := lower (strip user_input).

(** The coin answers to [q] by its symbol, and by its id or name. *)
Definition symbol_is (q : str) (c : coin) : Prop := lower (c_symbol c) = q.
Definition id_or_name_is (q : str) (c : coin) : Prop :=
  lower (c_id c) = q \/ lower (c_name c) = q.

(** A catalogue in which the name of the first coin is the symbol of the
    second. *)
Definition sample_coins : list coin :=
  [ {| c_id := lit "zzz-classic"; c_symbol := lit "zcl"; c_name := lit "ZZZ" |};
    {| c_id := lit "zzz-token"; c_symbol := lit "ZZZ"; c_name := lit "Triple Z" |} ].

(** The sentiment rows a page shows. *)
Definition page_rows (shown : page) : list sentiment_row :=
  match shown with
  | GeneralNews rows => rows
  | Snapshot _ _ (NewsShown rows) => rows
  | _ => []
  end.

(** ** Prices a feed can return *)

Fixpoint power_of_two (p : positive) : bool :=
  match p with
  | xH => true
  | xO p' => power_of_two p'
  | xI _ => false
  end.

Fixpoint odd_part (p : positive) : positive :=
  match p with
  | xO p' => odd_part p'
  | _ => p
  end.

(** The rational is the value of a float64: in lowest terms its
    denominator is a power of two and the odd part of its numerator fits
    the 53 bits of the significand. *)
Definition binary64_value (q : Q) : bool :=
  let r := Qred q in
  power_of_two (Qden r)
  && match Qnum r with
     | Z0 => true
     | Zpos p | Zneg p => (Zpos (odd_part p) <? 2 ^ 53)%Z
     end.

(** Zero, or of a size from 2^-64 to 2^64. *)
Definition moderate (q : Q) : bool :=
  let size := Z.abs (Qnum q) # Qden q in
  Qeq_bool q 0
  || (Qle_bool (1 # 2 ^ 64) size && Qle_bool size (2 ^ 64 # 1)).

(** A price as the JSON of the provider gives it: a float64 of moderate
    size.  On a history of such prices no operation of lines 63 to 72
    overflows or underflows in float64: two different prices differ by
    2^-116 at least and by 2^65 at most, so a price difference, a window
    sum and a window mean are zero in float64 exactly when they are zero
    in exact arithmetic, and every quotient is finite unless its divisor
    is zero. *)
Definition ordinary_price (q : Q) : bool := binary64_value q && moderate q.

Definition ordinary_prices (prices : list (Z * Q)) : bool :=
  forallb (fun p => ordinary_price (snd p)) prices.

(** ** Lines 63 to 67 in binary64 *)

(** The RSI lines of [calculate_indicators] on float64 columns, every
    operation rounded to nearest as numpy rounds it; the mean of a window
    is the sum of its 14 values, oldest first, over 14. *)
Module Binary64.

Import PrimFloat.

Definition column := list float.

Fixpoint diff_from (prev : float) (s : column) : column :=
  match s with
  | [] => []
  | x :: s' => sub x prev :: diff_from x s'
  end.

Definition diff (s : column) : column :=
  match s with
  | [] => []
  | x :: s' => nan :: diff_from x s'
  end.

Definition where_ (cond : float -> bool) (other : float) (s : column)
    : column :=
  map (fun x => if cond x then x else other) s.

Definition fsum (s : column) : float := fold_left add s 0%float.

Definition window_at (window i : nat) (s : column) : column :=
  firstn window (skipn (i + 1 - window) s).

Definition of_nat (n : nat) : float := of_uint63 (Uint63.of_Z (Z.of_nat n)).

Definition rolling_mean (window : nat) (s : column) : column :=
  map (fun i =>
         if i + 1 <? window then nan
         else if existsb is_nan (window_at window i s) then nan
         else div (fsum (window_at window i s)) (of_nat window))
      (seq 0 (length s)).

Fixpoint zip_with (f : float -> float -> float) (a b : column) : column :=
  match a, b with
  | x :: a', y :: b' => f x y :: zip_with f a' b'
  | _, _ => []
  end.

(** [delta.where(delta > 0, 0).rolling(window=14).mean()] *)
Definition gain_of (delta : column) : column :=
  rolling_mean 14 (where_ (fun d => ltb 0%float d) 0%float delta).

(** [-delta.where(delta < 0, 0).rolling(window=14).mean()] *)
Definition loss_of (delta : column) : column :=
  map opp (rolling_mean 14 (where_ (fun d => ltb d 0%float) 0%float delta)).

(** [100 - (100 / (1 + rs))] *)
Definition rsi_of (rs : column) : column :=
  map (fun r => sub 100%float (div 100%float (add 1%float r))) rs.

(** The locals [gain] and [loss] and the column [df["rsi"]] for a price
    column. *)
Definition gain (price : column) : column := gain_of (diff price).

Definition loss (price : column) : column := loss_of (diff price).

Definition rsi (price : column) : column :=
  rsi_of (zip_with div (gain price) (loss price)).

(** [x > 0] *)
Definition positive (x : float) : bool := ltb 0%float x.


(** Fourteen prices that swing between 0 and 1.7e308. *)
Definition swinging : column :=
  map (fun i => if Nat.even i then 0%float else 0x1.e42d130773b76p+1023%float)
      (seq 0 14).




End Binary64.

(** ** Sample collaborators *)

(** The two generic feeds as a run might find them: three entries under
    the Cointelegraph tag and two under the Bitcoin.com search, one of
    each with the word "crypto" in its title. *)
Definition generic_feed (url : str) : list entry :=
  if str_eqb url (lit "https://cointelegraph.com/rss/tag/crypto") then
    [ {| e_title := lit "Bitcoin tops 70k";
         e_link := lit "https://example.org/1" |};
      {| e_title := lit "Crypto markets rally";
         e_link := lit "https://example.org/2" |};
      {| e_title := lit "Ether slips";
         e_link := lit "https://example.org/3" |} ]
  else if str_eqb url (lit "https://news.bitcoin.com/feed/?s=crypto") then
    [ {| e_title := lit "Miners move north";
         e_link := lit "https://example.org/4" |};
      {| e_title := lit "Why crypto matters";
         e_link := lit "https://example.org/5" |} ]
  else [].

(** A model that finds a rally positive, fails on a title that asks why,
    and finds every other title negative. *)
Definition labelling_model (title : str) : option (str * Q) :=
  if contains (lit "rally") (lower title) then Some (lit "POSITIVE", 9 # 10)
  else if contains (lit "why") (lower title) then None
  else Some (lit "NEGATIVE", 6 # 10).

(** The sources of [fetch_crypto_news("crypto", "crypto")] that are
    fetched. *)
Definition generic_sources : list (str * str) :=
  [ (lit "Cointelegraph", lit "https://cointelegraph.com/rss/tag/crypto");
    (lit "Bitcoin.com", lit "https://news.bitcoin.com/feed/?s=crypto") ].

(** The two rows the fallback view shows on [generic_feed]. *)
Definition generic_rows : list sentiment_row :=
  [ (lit "Crypto markets rally", lit "POSITIVE", 9 # 10,
     lit "https://example.org/2", lit "Cointelegraph");
    (lit "Why crypto matters", UNKNOWN, 0%Q,
     lit "https://example.org/5", lit "Bitcoin.com") ].

(** A Cointelegraph feed for the tag "bitcoin" with seven entries, all
    about the coin. *)
Definition busy_entry (i : nat) : entry :=
  {| e_title := lit "Bitcoin rally day " ++ [ascii_of_nat (48 + i)];
     e_link := lit "https://example.org/b" ++ [ascii_of_nat (48 + i)] |}.

Definition busy_feed (url : str) : list entry :=
  if str_eqb url (lit "https://cointelegraph.com/rss/tag/bitcoin")
  then map busy_entry (seq 1 7)
  else [].

Definition bitcoin_metadata (symbol_id : str) : str * str :=
  (lit "Bitcoin", lit "BTC").

Definition usd_cad_price (symbol_id : str) : option (Q * Q) :=
  Some (70000%Q, 95000%Q).

Definition zigzag_chart (symbol_id : str) : list (Z * Q) := zigzag 14.

Definition flat_chart (symbol_id : str) : list (Z * Q) := flat 20.

Definition busy_row (i : nat) : sentiment_row :=
  (e_title (busy_entry i), lit "POSITIVE", 9 # 10, e_link (busy_entry i),
   lit "Cointelegraph").

(** The page of a run for "btc" over [busy_feed] and [zigzag_chart]. *)
Definition busy_page : page :=
  Snapshot (Some (70000%Q, 95000%Q))
           (ChartShown (calculate_indicators (zigzag 14))
                       (RsiNeutral, Bullish))
           (NewsShown (map busy_row (seq 1 5))).

(** * Properties *)

(** ** Text *)

Lemma str_eqb_eq (a b : str) : str_eqb a b = true <-> a = b.
Proof.
  revert b; induction a as [|x a IH]; intros [|y b]; simpl;
    try (split; [discriminate | congruence]); try tauto.
  rewrite andb_true_iff, Ascii.eqb_eq, IH.
  split; [intros [-> ->]; reflexivity | intros H; injection H; auto].
Qed.

Lemma mem_In (x : str) (xs : list str) : mem x xs = true <-> In x xs.
Proof.
  unfold mem. rewrite existsb_exists. split.
  - intros [y [Hy E]]. apply str_eqb_eq in E. now subst.
  - intros H. exists x. split; [assumption | now apply str_eqb_eq].
Qed.

Lemma starts_with_app (p s : str) :
  starts_with p s = true <-> exists rest, s = p ++ rest.
Proof.
  revert s; induction p as [|x p IH]; intros s; simpl.
  - split; [intros _; now exists s | reflexivity].
  - destruct s as [|y s].
    + split; [discriminate | intros [r E]; discriminate].
    + rewrite andb_true_iff, Ascii.eqb_eq, IH. split.
      * intros [-> [r ->]]. now exists r.
      * intros [r E]. injection E as -> ->. split; [reflexivity | now exists r].
Qed.

Lemma contains_app (sub s : str) :
  contains sub s = true <-> exists before after, s = before ++ sub ++ after.
Proof.
  induction s as [|c s IH]; simpl; rewrite orb_true_iff, starts_with_app.
  - split.
    + intros [[r E] | F]; [now exists [], r | discriminate].
    + intros [b [a E]]. left. destruct b; [now exists a | discriminate].
  - rewrite IH. split.
    + intros [[r E] | [b [a E]]].
      * now exists [], r.
      * exists (c :: b), a. simpl. now rewrite E.
    + intros [[|c' b] [a E]].
      * left. now exists a.
      * right. injection E as _ E. now exists b, a.
Qed.

Lemma In_firstn_nth_error {A : Type} (x : A) (n : nat) (l : list A) :
  In x (firstn n l) <-> exists k, k < n /\ nth_error l k = Some x.
Proof.
  revert l; induction n as [|n IH]; intros l; simpl.
  - split; [tauto | intros [k [Hk _]]; lia].
  - destruct l as [|y l]; simpl.
    + split; [tauto | intros [[|k] [_ E]]; discriminate].
    + rewrite IH. split.
      * intros [-> | [k [Hk E]]]; [exists 0 | exists (S k)]; split;
          try lia; simpl; auto.
      * intros [[|k] [Hk E]]; simpl in E.
        -- left. congruence.
        -- right. exists k. split; [lia | assumption].
Qed.

Lemma In_flush (tok cur : str) : In tok (flush cur) -> tok = cur.
Proof. destruct cur; simpl; intuition. Qed.

(** On a text whose only whitespace is the plain space, each token of
    [split] sits between two spaces of the padded text. *)
Lemma split_from_between_spaces (s : str) :
  plain_spaces s = true ->
  forall cur front tok,
    In tok (split_from cur s) ->
    exists before after,
      front ++ sp ++ cur ++ s ++ sp = before ++ sp ++ tok ++ sp ++ after.
Proof.
  induction s as [|c s IH]; intros P cur front tok Hin; simpl in Hin.
  - apply In_flush in Hin. subst. now exists front, [].
  - simpl in P. apply andb_true_iff in P as [Pc Ps].
    destruct (is_space c) eqn:Sc.
    + simpl in Pc. apply Ascii.eqb_eq in Pc. subst c.
      apply in_app_or in Hin as [Hin | Hin].
      * apply In_flush in Hin. subst. now exists front, (s ++ sp).
      * destruct (IH Ps [] (front ++ sp ++ cur) tok Hin) as [b [a E]].
        exists b, a. rewrite <- E. unfold sp, lit. simpl.
        now repeat rewrite <- app_assoc.
    + destruct (IH Ps (cur ++ [c]) front tok Hin) as [b [a E]].
      exists b, a. rewrite <- E. now repeat rewrite <- app_assoc.
Qed.

Lemma lower_char_space (c : ascii) :
  is_space (lower_char c) = is_space c /\
  (lower_char c = " "%char -> c = " "%char).
Proof.
  destruct c as [[] [] [] [] [] [] [] []]; vm_compute; split;
    (reflexivity || discriminate || auto).
Qed.

Lemma plain_spaces_lower (s : str) :
  plain_spaces s = true -> plain_spaces (lower s) = true.
Proof.
  unfold plain_spaces, lower. rewrite !forallb_forall. intros H c Hc.
  apply in_map_iff in Hc as [d [<- Hd]].
  specialize (H d Hd). destruct (lower_char_space d) as [E1 E2].
  rewrite E1. apply orb_true_iff in H as [H | H].
  - now rewrite H.
  - apply Ascii.eqb_eq in H. subst. apply orb_true_r.
Qed.

(** ** Headline matcher *)

Lemma fold_append_filter {A B : Type} (keep : A -> bool) (f : A -> B)
    (l : list A) (acc : list B) :
  fold_left (fun out x => if keep x then out ++ [f x] else out) l acc
  = acc ++ map f (filter keep l).
Proof.
  revert acc; induction l as [|x l IH]; intros acc; simpl.
  - now rewrite app_nil_r.
  - rewrite IH. destruct (keep x); simpl; [now rewrite <- app_assoc | reflexivity].
Qed.

Lemma scan_entries_filter (entries : list entry) (coin_name ticker src : str) :
  scan_entries entries coin_name ticker src
  = map (headline_of src)
        (filter (fun e => keeps coin_name ticker (e_title e)) entries).
Proof. unfold scan_entries. now rewrite fold_append_filter. Qed.

Lemma contains_padded (term s : str) :
  contains (padded term) s = true
  <-> exists before after, s = before ++ sp ++ term ++ sp ++ after.
Proof.
  rewrite contains_app. unfold padded.
  split; intros [b [a E]]; exists b, a; rewrite E;
    now repeat rewrite <- app_assoc.
Qed.

Lemma first6_term_spec (term title : str) :
  first6_term (lower term) (lower title) = true <-> among_first6 term title.
Proof.
  unfold first6_term, among_first6. now rewrite mem_In, In_firstn_nth_error.
Qed.

Lemma word_term_spec (term title : str) :
  word_term (lower term) (lower title) = true <-> standalone_word term title.
Proof. unfold word_term, standalone_word. apply contains_padded. Qed.

Lemma any_of_two {A : Type} (f : A -> bool) (a b : A) :
  existsb f [a; b] = true <-> f a = true \/ f b = true.
Proof. simpl. rewrite orb_false_r. apply orb_true_iff. Qed.

(** C5. A headline is kept by [fetch_rss_news] if and only if, ignoring
    case, the coin name or the ticker is one of the first six
    whitespace-separated tokens of the title, or occurs between two spaces
    of the title padded with a space on each side; the headlines returned
    are the kept entries of the feed, in feed order. *)
Theorem fetch_rss_news_keeps_relevant
    (feedparser_parse : str -> list entry)
    (feed_url coin_name ticker source_name : str) :
  (forall title,
      keeps coin_name ticker title = true <-> relevant coin_name ticker title)
  /\ fetch_rss_news feedparser_parse feed_url coin_name ticker source_name
     = map (headline_of source_name)
           (filter (fun e => keeps coin_name ticker (e_title e))
                   (feedparser_parse feed_url)).
Proof.
  split.
  - intros title. unfold keeps, relevant, first6_check, word_check.
    rewrite orb_true_iff, !any_of_two.
    now rewrite !first6_term_spec, !word_term_spec.
  - apply scan_entries_filter.
Qed.

(** C6, as the code behaves: the headline "Canada eyes new ADA regulation"
    is kept for the ticker "ada", since its fourth token is "ada" once
    lowercased. *)
Lemma canada_ada_headline_is_kept :
  keeps (lit "Cardano") (lit "ada") canada_title = true.
Proof. vm_compute. reflexivity. Qed.

(** C6 (amended). Whatever the coin name, the headline "Canada eyes new
    ADA regulation" is kept for the ticker "ada", because of the token
    "ADA"; the word "Canada" itself matches "ada" under neither check. *)
Theorem ada_token_matches_canada_does_not (coin_name : str) :
  keeps coin_name (lit "ada") canada_title = true
  /\ first6_term (lit "ada") (lower (lit "Canada")) = false
  /\ word_term (lit "ada") (lower (lit "Canada")) = false
  /\ keeps (lit "Cardano") (lit "ada") (lit "Canada eyes new regulation")
     = false.
Proof.
  repeat split; try (vm_compute; reflexivity).
  unfold keeps, first6_check. apply orb_true_iff. left.
  apply any_of_two. right. vm_compute. reflexivity.
Qed.

(** C7, as the code behaves: with a tab after the term, the first-six-token
    check accepts the title and the space-padded check rejects it. *)
Lemma tab_title_first6_without_word :
  first6_term (lit "btc") (lower (lit "BTC" ++ [TAB] ++ lit "up")) = true
  /\ word_term (lit "btc") (lower (lit "BTC" ++ [TAB] ++ lit "up")) = false.
Proof. split; vm_compute; reflexivity. Qed.

(** C7 (amended). For a title whose only whitespace characters are plain
    spaces, a term accepted by the first-six-token check is accepted by
    the space-padded standalone-word check. *)
Theorem first6_implies_word_on_plain_spaces (term title : str) :
  plain_spaces title = true ->
  first6_term term (lower title) = true ->
  word_term term (lower title) = true.
Proof.
  intros P H. unfold first6_term in H. apply mem_In in H.
  apply In_firstn_nth_error in H as [k [_ H]]. apply nth_error_In in H.
  unfold split in H.
  destruct (split_from_between_spaces (lower title) (plain_spaces_lower _ P)
              [] [] term H) as [b [a E]].
  unfold word_term. apply contains_padded. exists b, a.
  simpl in E. exact E.
Qed.

Lemma first6_implies_word_on_plain_spaces_witness :
  word_term (lit "btc") (lower (lit "BTC up today")) = true.
Proof.
  apply first6_implies_word_on_plain_spaces; vm_compute; reflexivity.
Defined.

(** ** The cap on the headline pool *)

Lemma fold_extend {A B : Type} (keep : A -> bool) (f : A -> list B)
    (l : list A) (acc : list B) :
  fold_left (fun out x => if keep x then out ++ f x else out) l acc
  = acc ++ flat_map f (filter keep l).
Proof.
  revert acc; induction l as [|x l IH]; intros acc; simpl.
  - now rewrite app_nil_r.
  - rewrite IH. destruct (keep x); simpl; [now rewrite <- app_assoc | reflexivity].
Qed.

Lemma fold_left_pointwise {A B : Type} (f g : B -> A -> B) (l : list A) :
  (forall acc x, f acc x = g acc x) ->
  forall acc, fold_left f l acc = fold_left g l acc.
Proof.
  intros E. induction l as [|x l IH]; intros acc; simpl;
    [reflexivity | now rewrite E, IH].
Qed.

Lemma fetch_crypto_news_pool (feedparser_parse : str -> list entry)
    (coin_name ticker : str) :
  fetch_crypto_news feedparser_parse coin_name ticker
  = firstn 5 (matched_pool feedparser_parse coin_name ticker).
Proof.
  unfold fetch_crypto_news, matched_pool, fetched_sources. f_equal.
  rewrite <- (app_nil_l (flat_map _ _)).
  rewrite <- (fold_extend (fun src => is_feed_url (snd src))
                (matched feedparser_parse coin_name ticker)).
  apply fold_left_pointwise. intros acc [source_name url]. simpl.
  unfold fetch_rss_news, matched. simpl. now rewrite scan_entries_filter.
Qed.

Lemma cointelegraph_is_feed (coin_name : str) :
  is_feed_url (lit "https://cointelegraph.com/rss/tag/" ++ lower coin_name)
  = true.
Proof.
  unfold is_feed_url. apply orb_true_iff. left. apply contains_app.
  now exists (lit "https://cointelegraph.com/"), (lit "/tag/" ++ lower coin_name).
Qed.

Lemma bitcoin_com_is_feed (coin_name : str) :
  is_feed_url (lit "https://news.bitcoin.com/feed/?s=" ++ lower coin_name)
  = true.
Proof.
  unfold is_feed_url. apply orb_true_iff. right. apply contains_app.
  now exists (lit "https://news.bitcoin.com/"), (lit "/?s=" ++ lower coin_name).
Qed.

Lemma feeds_always_fetched (coin_name : str) :
  firstn 2 (fetched_sources coin_name) = firstn 2 (sources coin_name).
Proof.
  unfold fetched_sources, sources. cbn [filter snd].
  now rewrite cointelegraph_is_feed, bitcoin_com_is_feed.
Qed.

(** C9. [fetch_crypto_news] returns the first five headlines of the pool
    of matches, taken source by source in the fixed source order and, in a
    source, in discovery order: never more than five, and exactly five
    once the pool holds five or more.  The pool spans the sources whose
    URL passes the feed gate, Cointelegraph and Bitcoin.com always among
    them, in that order. *)
Theorem fetch_crypto_news_first_five
    (feedparser_parse : str -> list entry) (coin_name ticker : str) :
  let pool := matched_pool feedparser_parse coin_name ticker in
  let news := fetch_crypto_news feedparser_parse coin_name ticker in
  news = firstn 5 pool
  /\ length news <= 5
  /\ (5 <= length pool -> length news = 5)
  /\ (length pool <= 5 -> news = pool)
  /\ firstn 2 (fetched_sources coin_name) = firstn 2 (sources coin_name).
Proof.
  intros pool news. subst news. rewrite fetch_crypto_news_pool. fold pool.
  split; [reflexivity|]. split; [rewrite length_firstn; lia|].
  split; [intros H; rewrite length_firstn; lia|].
  split; [intros H; now apply firstn_all2 | apply feeds_always_fetched].
Qed.

(** ** Sentiment scorer *)

Section Scorer.

Variable sentiment_model : str -> option (str * Q).

Lemma score_loop_from (headlines : list headline) (acc : list sentiment_row) :
  fold_left
    (fun results h =>
       let '(title, url, source) := h in
       match sentiment_model title with
       | Some (label, score) =>
           results ++ [(title, label, score, url, source)]
       | None => results ++ [(title, UNKNOWN, 0%Q, url, source)]
       end)
    headlines acc
  = acc ++ map (row_of sentiment_model) headlines.
Proof.
  revert acc.
  induction headlines as [|[[title url] source] hs IH]; intros acc; simpl.
  - now rewrite app_nil_r.
  - destruct (sentiment_model title) as [[label score]|]; rewrite IH;
      now rewrite <- app_assoc.
Qed.

Lemma analyze_sentiment_map (headlines : list headline) :
  analyze_sentiment sentiment_model headlines
  = map (row_of sentiment_model) headlines.
Proof. unfold analyze_sentiment. now rewrite score_loop_from. Qed.

End Scorer.

(** C8. [analyze_sentiment] returns one row per headline, in the order of
    the input: the row at each position carries that headline's title, link
    and source, with the model's label and score, or UNKNOWN and 0.0 when
    the call on that headline fails; the rows of the other headlines do not
    depend on it. *)
Theorem analyze_sentiment_one_row_per_headline
    (sentiment_model : str -> option (str * Q)) (headlines : list headline) :
  length (analyze_sentiment sentiment_model headlines) = length headlines
  /\ (forall i title url source,
         nth_error headlines i = Some (title, url, source) ->
         (sentiment_model title = None ->
          nth_error (analyze_sentiment sentiment_model headlines) i
          = Some (title, UNKNOWN, 0%Q, url, source))
         /\ (forall label score,
                sentiment_model title = Some (label, score) ->
                nth_error (analyze_sentiment sentiment_model headlines) i
                = Some (title, label, score, url, source)))
  /\ (forall before h after,
         headlines = before ++ h :: after ->
         analyze_sentiment sentiment_model headlines
         = analyze_sentiment sentiment_model before
           ++ row_of sentiment_model h
           :: analyze_sentiment sentiment_model after).
Proof.
  rewrite analyze_sentiment_map. repeat split.
  - apply length_map.
  - intros F. rewrite nth_error_map, H. simpl. now rewrite F.
  - intros label score F. rewrite nth_error_map, H. simpl. now rewrite F.
  - intros before h after ->. rewrite !analyze_sentiment_map, map_app.
    reflexivity.
Qed.

(** ** Asset resolution and the fallback view *)

Lemma generic_sources_fetched :
  fetched_sources (lit "crypto") = generic_sources.
Proof. vm_compute. reflexivity. Qed.

(** C10, as the code behaves: the fallback view is filtered.  Of the five
    entries the two generic feeds hold, the script shows the two whose
    title has the word "crypto". *)
Lemma fallback_view_keeps_crypto_titles_only :
  resolve_crypto_id sample_coins (lit "nope") = None
  /\ length (flat_map (fun src => generic_feed (snd src)) generic_sources) = 5
  /\ app generic_feed labelling_model sample_coins no_price no_chart
         bare_metadata (lit "nope")
     = Ok (GeneralNews generic_rows).
Proof. repeat split; vm_compute; reflexivity. Qed.

(** C10 (amended). When the resolver finds no id for a typed ticker, the
    script completes normally with a general news view that does not
    depend on the ticker: the entries of the Cointelegraph feed for the
    tag "crypto", then those of the Bitcoin.com feed for the search
    "crypto", filtered by the matching rule with the fixed word "crypto"
    as coin name and as ticker, cut to the first five and scored. *)
Theorem unresolved_ticker_shows_crypto_headlines
    (feedparser_parse : str -> list entry)
    (sentiment_model : str -> option (str * Q))
    (coins_list : list coin)
    (get_crypto_price : str -> option (Q * Q))
    (get_crypto_chart : str -> list (Z * Q))
    (get_coin_metadata : str -> str * str)
    (ticker_input : str) :
  truthy ticker_input = true ->
  resolve_crypto_id coins_list ticker_input = None ->
  let pool :=
    flat_map (matched feedparser_parse (lit "crypto") (lit "crypto"))
             generic_sources in
  app feedparser_parse sentiment_model coins_list get_crypto_price
      get_crypto_chart get_coin_metadata ticker_input
  = Ok (GeneralNews (map (row_of sentiment_model) (firstn 5 pool)))
  /\ Forall (fun h =>
               exists src e,
                 In src generic_sources
                 /\ In e (feedparser_parse (snd src))
                 /\ keeps (lit "crypto") (lit "crypto") (e_title e) = true
                 /\ h = headline_of (fst src) e)
            pool.
Proof.
  intros T R pool. split.
  - unfold app. rewrite T, R.
    rewrite analyze_sentiment_map, fetch_crypto_news_pool.
    unfold matched_pool. now rewrite generic_sources_fetched.
  - apply Forall_forall. intros h Hh. unfold pool in Hh.
    apply in_flat_map in Hh as [src [Hsrc Hh]]. unfold matched in Hh.
    apply in_map_iff in Hh as [e [<- He]].
    apply filter_In in He as [He K]. now exists src, e.
Qed.

Lemma unresolved_ticker_shows_crypto_headlines_witness :
  let pool :=
    flat_map (matched generic_feed (lit "crypto") (lit "crypto"))
             generic_sources in
  app generic_feed labelling_model sample_coins no_price no_chart
      bare_metadata (lit "nope")
  = Ok (GeneralNews (map (row_of labelling_model) (firstn 5 pool)))
  /\ Forall (fun h =>
               exists src e,
                 In src generic_sources
                 /\ In e (generic_feed (snd src))
                 /\ keeps (lit "crypto") (lit "crypto") (e_title e) = true
                 /\ h = headline_of (fst src) e)
            pool.
Proof.
  apply unresolved_ticker_shows_crypto_headlines; vm_compute; reflexivity.
Defined.

(** ** Time series construction *)

Lemma strictly_ascending_dates (l : list Z) :
  strictly_ascending (map to_datetime_ms l) = strictly_ascending l.
Proof.
  induction l as [|a [|b l] IH]; try reflexivity.
  change (strictly_ascending (map to_datetime_ms (a :: b :: l)))
    with ((to_datetime_ms a <? to_datetime_ms b)%Z
          && strictly_ascending (map to_datetime_ms (b :: l))).
  rewrite IH. change (strictly_ascending (a :: b :: l))
    with ((a <? b)%Z && strictly_ascending (b :: l)).
  f_equal. unfold to_datetime_ms.
  destruct (Z.ltb_spec a b), (Z.ltb_spec (a * 1000000) (b * 1000000));
    try reflexivity; lia.
Qed.

(** C4, as the code behaves: two points given latest first stay in that
    order, and two points on one timestamp are both kept. *)
Lemma unsorted_and_duplicate_input_kept_as_given :
  strictly_ascending (f_index (calculate_indicators unsorted_pair)) = false
  /\ f_index (calculate_indicators duplicate_pair) = [1000000; 1000000]%Z
  /\ f_price (calculate_indicators duplicate_pair) = [Fin 4; Fin 5].
Proof. repeat split. Qed.

(** C4 (amended). The frame keeps every input pair, in input order: its
    index is the list of input timestamps as dates and its price column
    the list of input prices, so the index is strictly ascending exactly
    when the input timestamps are; an empty input gives an empty frame. *)
Theorem calculate_indicators_keeps_input_order (prices : list (Z * Q)) :
  f_index (calculate_indicators prices)
  = map (fun p => to_datetime_ms (fst p)) prices
  /\ f_price (calculate_indicators prices) = map (fun p => Fin (snd p)) prices
  /\ strictly_ascending (f_index (calculate_indicators prices))
     = strictly_ascending (map fst prices)
  /\ calculate_indicators []
     = {| f_index := []; f_timestamp := []; f_price := [];
          f_rsi := []; f_macd := []; f_signal := [] |}.
Proof.
  repeat split.
  - simpl. now rewrite map_map.
  - simpl. apply strictly_ascending_dates.
Qed.

(** ** Indicator interpreter *)

Lemma iloc_last_dropna (s : series) :
  has_value s = true ->
  exists x, iloc_last (dropna s) = Ok x /\ is_nan x = false /\ In x s.
Proof.
  intros H. apply existsb_exists in H as [v [Hv Nv]].
  assert (Hd : In v (rev (dropna s))).
  { apply in_rev. rewrite rev_involutive. apply filter_In. now split. }
  unfold iloc_last. destruct (rev (dropna s)) as [|x r] eqn:E; [contradiction|].
  exists x. split; [reflexivity|].
  assert (Hx : In x (dropna s)).
  { apply in_rev. rewrite E. now left. }
  apply filter_In in Hx as [Hx Nx]. split; [|assumption].
  now apply negb_true_iff in Nx.
Qed.

(** ** Indicator engine *)

Lemma Qeq_bool_zero_false (q : Q) : ~ (q == 0)%Q -> Qeq_bool q 0 = false.
Proof.
  intros H. destruct (Qeq_bool q 0) eqn:E; [|reflexivity].
  apply Qeq_bool_eq in E. contradiction.
Qed.

Lemma Qltb_lt (a b : Q) : Qltb a b = true <-> (a < b)%Q.
Proof.
  unfold Qltb. rewrite negb_true_iff. split.
  - intros H. apply Qnot_le_lt. intros L. apply Qle_bool_iff in L. congruence.
  - intros H. destruct (Qle_bool b a) eqn:E; [|reflexivity].
    apply Qle_bool_iff in E. lra.
Qed.

Lemma Qltb_ge (a b : Q) : (b <= a)%Q -> Qltb a b = false.
Proof.
  intros H. destruct (Qltb a b) eqn:E; [|reflexivity].
  apply Qltb_lt in E. lra.
Qed.

Lemma fgt_zero (q : Q) : fgt (Fin q) (Fin 0) = true <-> (0 < q)%Q.
Proof.
  unfold fgt, fcompare, mag. rewrite Qgt_alt.
  destruct (q ?= 0)%Q; split; congruence.
Qed.

Lemma flt_zero (q : Q) : flt (Fin q) (Fin 0) = true <-> (q < 0)%Q.
Proof.
  unfold flt, fcompare, mag. rewrite Qlt_alt.
  destruct (q ?= 0)%Q; split; congruence.
Qed.

Lemma rsi_formula_finite_loss (gq lq : Q) :
  (0 <= gq)%Q -> (0 < lq)%Q ->
  exists x, rsi_formula (Fin gq) (Fin lq) = Fin x /\ (0 <= x)%Q /\ (x < 100)%Q.
Proof.
  intros Hg Hl.
  assert (Hrs : exists rq, fdiv (Fin gq) (Fin lq) = Fin rq /\ (0 <= rq)%Q).
  { unfold fdiv. simpl is_zero. rewrite (Qeq_bool_zero_false lq) by lra.
    destruct (Qeq_bool gq 0) eqn:E.
    - exists 0%Q. simpl. rewrite (Qltb_ge gq 0), (Qltb_ge lq 0) by lra.
      split; [reflexivity | lra].
    - exists (gq / lq)%Q. split; [reflexivity|].
      apply Qle_shift_div_l; lra. }
  destruct Hrs as [rq [Ers Hrq]]. unfold rsi_formula. rewrite Ers.
  unfold fadd, mag.
  assert (Hz : Qeq_bool (1 + rq) 0 = false)
    by (apply Qeq_bool_zero_false; lra).
  assert (Hd : (0 < 100 / (1 + rq) /\ 100 / (1 + rq) <= 100)%Q).
  { split; [apply Qlt_shift_div_l | apply Qle_shift_div_r]; lra. }
  unfold fdiv. simpl is_zero. rewrite Hz.
  change (Qeq_bool 100 0) with false. cbv iota.
  cbn [mag]. destruct Hd as [Hd Hd'].
  remember (100 / (1 + rq))%Q as d eqn:Ed. clear Ed.
  unfold fsub, fneg. rewrite (Qeq_bool_zero_false d) by lra.
  exists (100 + - d)%Q. split; [reflexivity | lra].
Qed.

Lemma rsi_formula_saturates (gq : Q) :
  (0 < gq)%Q ->
  exists x, rsi_formula (Fin gq) NegZero = Fin x /\ (x == 100)%Q.
Proof.
  intros Hg. unfold rsi_formula, fdiv. simpl is_zero.
  rewrite (Qeq_bool_zero_false gq) by lra.
  simpl sign. rewrite (Qltb_ge gq 0) by lra. simpl.
  exists (100 + 0)%Q. split; [reflexivity | lra].
Qed.

Lemma rsi_formula_flat (gq : Q) :
  (gq == 0)%Q -> rsi_formula (Fin gq) NegZero = NaN.
Proof.
  intros Hg. unfold rsi_formula, fdiv. simpl is_zero.
  now rewrite (Qeq_eq_bool gq 0 Hg).
Qed.

Lemma fsub_fin (a b : Q) : fin (fsub (Fin a) (Fin b)).
Proof. unfold fsub, fneg. destruct (Qeq_bool b 0); eexists; reflexivity. Qed.

Lemma diff_from_delta_like (s : series) :
  Forall fin s -> forall p, Forall delta_like (diff_from (Fin p) s).
Proof.
  induction 1 as [|x s [q ->] _ IH]; intros p; simpl; constructor.
  - right. apply fsub_fin.
  - apply IH.
Qed.

Lemma diff_delta_like (s : series) : Forall fin s -> Forall delta_like (diff s).
Proof.
  intros [|x s' [q ->] H]; simpl; constructor.
  - now left.
  - now apply diff_from_delta_like.
Qed.

Lemma gains_nonneg (s : series) :
  Forall delta_like s ->
  Forall nonneg_fin (where_ (fun d => fgt d (Fin 0)) (Fin 0) s).
Proof.
  intros H. unfold where_. apply Forall_map.
  eapply Forall_impl; [|exact H]. intros x [-> | [q ->]].
  - exists 0%Q. split; [reflexivity | lra].
  - destruct (fgt (Fin q) (Fin 0)) eqn:E.
    + apply fgt_zero in E. exists q. split; [reflexivity | lra].
    + exists 0%Q. split; [reflexivity | lra].
Qed.

Lemma losses_nonpos (s : series) :
  Forall delta_like s ->
  Forall nonpos_fin (where_ (fun d => flt d (Fin 0)) (Fin 0) s).
Proof.
  intros H. unfold where_. apply Forall_map.
  eapply Forall_impl; [|exact H]. intros x [-> | [q ->]].
  - exists 0%Q. split; [reflexivity | lra].
  - destruct (flt (Fin q) (Fin 0)) eqn:E.
    + apply flt_zero in E. exists q. split; [reflexivity | lra].
    + exists 0%Q. split; [reflexivity | lra].
Qed.

Lemma Forall_window {P : fval -> Prop} (w i : nat) (s : series) :
  Forall P s -> Forall P (window_at w i s).
Proof.
  intros H. unfold window_at.
  rewrite <- (firstn_skipn (i + 1 - w) s) in H. apply Forall_app in H as [_ H].
  rewrite <- (firstn_skipn w (skipn (i + 1 - w) s)) in H.
  now apply Forall_app in H as [H _].
Qed.

Lemma fsum_from_nonneg (s : series) :
  Forall nonneg_fin s ->
  forall a, (0 <= a)%Q -> nonneg_fin (fold_left fadd s (Fin a)).
Proof.
  induction 1 as [|x s [q [-> Hq]] _ IH]; intros a Ha; simpl.
  - now exists a.
  - apply IH. lra.
Qed.

Lemma fsum_from_nonpos (s : series) :
  Forall nonpos_fin s ->
  forall a, (a <= 0)%Q -> nonpos_fin (fold_left fadd s (Fin a)).
Proof.
  induction 1 as [|x s [q [-> Hq]] _ IH]; intros a Ha; simpl.
  - now exists a.
  - apply IH. lra.
Qed.

Lemma no_nan_among_fin (s : series) : Forall fin s -> existsb is_nan s = false.
Proof.
  induction 1 as [|x s [q ->] _ IH]; simpl; [reflexivity | assumption].
Qed.

Lemma nonneg_is_fin (x : fval) : nonneg_fin x -> fin x.
Proof. intros [q [-> _]]. now exists q. Qed.

Lemma nonpos_is_fin (x : fval) : nonpos_fin x -> fin x.
Proof. intros [q [-> _]]. now exists q. Qed.

Lemma fdiv_by_positive (s c : Q) :
  (0 < c)%Q ->
  fdiv (Fin s) (Fin c)
  = if Qeq_bool s 0 then zero (Qltb s 0) else Fin (s / c).
Proof.
  intros Hc. unfold fdiv, is_zero, sign, mag.
  rewrite (Qeq_bool_zero_false c) by lra.
  rewrite (Qltb_ge c 0) by lra. now rewrite xorb_false_r.
Qed.

Lemma fourteen_positive : (0 < inject_Z (Z.of_nat 14))%Q.
Proof. reflexivity. Qed.

Lemma mean_nonneg (s : Q) :
  (0 <= s)%Q -> nonneg_fin (fdiv (Fin s) (of_nat 14)).
Proof.
  intros H. unfold of_nat. rewrite (fdiv_by_positive _ _ fourteen_positive).
  destruct (Qeq_bool s 0).
  - rewrite (Qltb_ge s 0) by lra. exists 0%Q. split; [reflexivity | lra].
  - eexists. split; [reflexivity|].
    apply Qle_shift_div_l; [exact fourteen_positive | lra].
Qed.

Lemma neg_mean_loss_like (s : Q) :
  (s <= 0)%Q -> loss_like (fneg (fdiv (Fin s) (of_nat 14))).
Proof.
  intros H. unfold of_nat. rewrite (fdiv_by_positive _ _ fourteen_positive).
  destruct (Qeq_bool s 0) eqn:E.
  - apply Qeq_bool_eq in E. rewrite (Qltb_ge s 0) by lra. now left.
  - apply Qeq_bool_neq in E. right.
    assert (L : (s / inject_Z (Z.of_nat 14) < 0)%Q).
    { apply Qlt_shift_div_r; [exact fourteen_positive | lra]. }
    remember (s / inject_Z (Z.of_nat 14))%Q as m eqn:Em. clear Em.
    unfold fneg. rewrite (Qeq_bool_zero_false m) by lra.
    exists (- m)%Q. split; [reflexivity | lra].
Qed.

Lemma length_diff_from (s : series) (p : fval) :
  length (diff_from p s) = length s.
Proof. revert p; induction s; intros p; simpl; [reflexivity | now rewrite IHs]. Qed.

Lemma length_diff (s : series) : length (diff s) = length s.
Proof. destruct s; simpl; [reflexivity | now rewrite length_diff_from]. Qed.

Lemma length_rolling_mean (w : nat) (s : series) :
  length (rolling_mean w s) = length s.
Proof. unfold rolling_mean. now rewrite length_map, length_seq. Qed.

Lemma length_zip_with (f : fval -> fval -> fval) (a b : series) :
  length a = length b -> length (zip_with f a b) = length a.
Proof.
  revert b; induction a as [|x a IH]; intros [|y b] E; simpl in *;
    try reflexivity; try discriminate.
  f_equal. apply IH. now injection E.
Qed.

Lemma length_ewm_from (alpha : Q) (s : series) (p : fval) :
  length (ewm_from alpha p s) = length s.
Proof. revert p; induction s; intros p; simpl; [reflexivity | now rewrite IHs]. Qed.

Lemma length_ewm_mean (span : nat) (s : series) :
  length (ewm_mean span s) = length s.
Proof. destruct s; simpl; [reflexivity | now rewrite length_ewm_from]. Qed.

Lemma nth_error_zip_with (f : fval -> fval -> fval) (a b : series) (i : nat) :
  nth_error (zip_with f a b) i
  = match nth_error a i, nth_error b i with
    | Some x, Some y => Some (f x y)
    | _, _ => None
    end.
Proof.
  revert b i; induction a as [|x a IH]; intros [|y b] [|i]; simpl;
    try reflexivity.
  - now destruct (nth_error a i).
  - apply IH.
Qed.

Lemma nth_error_rolling_mean (w : nat) (s : series) (i : nat) :
  i < length s ->
  nth_error (rolling_mean w s) i
  = Some (if i + 1 <? w then NaN
          else if existsb is_nan (window_at w i s) then NaN
          else fdiv (fsum (window_at w i s)) (of_nat w)).
Proof.
  intros H. unfold rolling_mean. rewrite nth_error_map, nth_error_seq.
  apply Nat.ltb_lt in H. now rewrite H.
Qed.

Lemma gain_at (delta : series) (i : nat) :
  Forall delta_like delta -> i < length delta ->
  exists g, nth_error (gain_of delta) i = Some g
            /\ (i < 13 -> g = NaN) /\ (13 <= i -> nonneg_fin g).
Proof.
  intros D L. unfold gain_of.
  rewrite nth_error_rolling_mean by (unfold where_; now rewrite length_map).
  eexists. split; [reflexivity|]. split; intros H.
  - assert (E : (i + 1 <? 14) = true) by (apply Nat.ltb_lt; lia). now rewrite E.
  - assert (E : (i + 1 <? 14) = false) by (apply Nat.ltb_ge; lia). rewrite E.
    pose proof (Forall_window 14 i _ (gains_nonneg _ D)) as W.
    rewrite no_nan_among_fin
      by (eapply Forall_impl; [apply nonneg_is_fin | exact W]).
    destruct (fsum_from_nonneg _ W 0%Q) as [q [Eq Hq]]; [lra|].
    unfold fsum. rewrite Eq. now apply mean_nonneg.
Qed.

Lemma loss_at (delta : series) (i : nat) :
  Forall delta_like delta -> i < length delta ->
  exists l, nth_error (loss_of delta) i = Some l
            /\ (i < 13 -> l = NaN) /\ (13 <= i -> loss_like l).
Proof.
  intros D L. unfold loss_of, neg. rewrite nth_error_map.
  rewrite nth_error_rolling_mean by (unfold where_; now rewrite length_map).
  eexists. split; [reflexivity|]. split; intros H.
  - assert (E : (i + 1 <? 14) = true) by (apply Nat.ltb_lt; lia). now rewrite E.
  - assert (E : (i + 1 <? 14) = false) by (apply Nat.ltb_ge; lia). rewrite E.
    pose proof (Forall_window 14 i _ (losses_nonpos _ D)) as W.
    rewrite no_nan_among_fin
      by (eapply Forall_impl; [apply nonpos_is_fin | exact W]).
    destruct (fsum_from_nonpos _ W 0%Q) as [q [Eq Hq]]; [lra|].
    unfold fsum. rewrite Eq. now apply neg_mean_loss_like.
Qed.

Lemma price_column_fin (prices : list (Z * Q)) : Forall fin (price_column prices).
Proof.
  unfold price_column. apply Forall_map, Forall_forall. intros p _.
  now exists (snd p).
Qed.

Lemma delta_of_prices (prices : list (Z * Q)) :
  Forall delta_like (diff (price_column prices))
  /\ length (diff (price_column prices)) = length prices.
Proof.
  split; [apply diff_delta_like, price_column_fin|].
  unfold price_column. now rewrite length_diff, length_map.
Qed.

Lemma rsi_at (prices : list (Z * Q)) (i : nat) (g l : fval) :
  nth_error (gain_column prices) i = Some g ->
  nth_error (loss_column prices) i = Some l ->
  nth_error (f_rsi (calculate_indicators prices)) i = Some (rsi_formula g l).
Proof.
  intros G L. unfold gain_column in G. unfold loss_column in L.
  simpl. unfold rsi_of. rewrite nth_error_map, nth_error_zip_with, G, L.
  reflexivity.
Qed.

Lemma columns_at (prices : list (Z * Q)) (i : nat) :
  i < length prices ->
  exists g l,
    nth_error (gain_column prices) i = Some g
    /\ nth_error (loss_column prices) i = Some l
    /\ nth_error (f_rsi (calculate_indicators prices)) i
       = Some (rsi_formula g l)
    /\ (i < 13 -> g = NaN /\ l = NaN)
    /\ (13 <= i -> nonneg_fin g /\ loss_like l).
Proof.
  intros H. destruct (delta_of_prices prices) as [D Len].
  rewrite <- Len in H.
  destruct (gain_at _ i D H) as [g [G [G1 G2]]].
  destruct (loss_at _ i D H) as [l [L [L1 L2]]].
  exists g, l. repeat split; auto. now apply rsi_at.
Qed.

Lemma nth_error_in_range {A : Type} (l : list A) (i : nat) (x : A) :
  nth_error l i = Some x -> i < length l.
Proof. intros H. apply nth_error_Some. congruence. Qed.

Lemma length_gain_column (prices : list (Z * Q)) :
  length (gain_column prices) = length prices.
Proof.
  unfold gain_column, gain_of, where_.
  now rewrite length_rolling_mean, length_map, length_diff, length_map.
Qed.

(** ** Prices of ordinary size *)

Lemma power_of_two_spec (p : positive) :
  power_of_two p = true -> exists e : Z, (0 <= e)%Z /\ Zpos p = (2 ^ e)%Z.
Proof.
  induction p as [p IH | p IH |]; simpl; intros H; [discriminate | |].
  - destruct (IH H) as [e [He E]]. exists (e + 1)%Z. split; [lia|].
    rewrite Z.pow_add_r, <- E by lia. lia.
  - exists 0%Z. split; [lia | reflexivity].
Qed.

Lemma odd_part_odd (p : positive) :
  Z.odd (Zpos p) = true -> odd_part p = p.
Proof. destruct p; simpl; intros H; (reflexivity || discriminate). Qed.

Lemma coprime_to_even_is_odd (n e : Z) :
  (0 < e)%Z -> Z.gcd n (2 ^ e) = 1%Z -> Z.odd n = true.
Proof.
  intros He G. destruct (Z.odd n) eqn:Od; [reflexivity|]. exfalso.
  assert (D2 : (2 | Z.gcd n (2 ^ e))%Z).
  { apply Z.gcd_greatest.
    - rewrite <- Z.negb_even in Od. apply negb_false_iff in Od.
      apply Z.even_spec in Od as [m ->]. exists m. lia.
    - exists (2 ^ (e - 1))%Z. change 2%Z with (2 ^ 1)%Z at 3.
      rewrite <- Z.pow_add_r by lia. f_equal. lia. }
  rewrite G in D2. destruct D2 as [m Hm]. lia.
Qed.

(** The arithmetic of [ordinary_price]: a fraction [a / b] equal to
    [n / 2^e] in lowest terms, with [n] of at most 53 bits when it is odd
    and a size between 2^-64 and 2^64, is a multiple of 2^-116. *)
Lemma grid_of_fraction (a b n e : Z) :
  (0 < b)%Z -> (0 <= e)%Z ->
  (n * b = a * 2 ^ e)%Z ->
  (Z.odd n = true -> Z.abs n < 2 ^ 53)%Z ->
  Z.gcd n (2 ^ e) = 1%Z ->
  (b <= Z.abs a * 2 ^ 64)%Z ->
  (Z.abs a <= 2 ^ 64 * b)%Z ->
  exists k : Z, (a * 2 ^ 116 = k * b)%Z /\ (Z.abs k <= 2 ^ 180)%Z.
Proof.
  intros Hb He C O G Lo Hi.
  assert (Pe : (0 < 2 ^ e)%Z) by (apply Z.pow_pos_nonneg; lia).
  assert (A : (Z.abs n * b = Z.abs a * 2 ^ e)%Z).
  { rewrite <- (Z.abs_eq b) at 1 by lia.
    rewrite <- (Z.abs_eq (2 ^ e)) by lia.
    rewrite <- !Z.abs_mul. now f_equal. }
  assert (Small : (e <= 116)%Z).
  { destruct (Z.eq_dec e 0) as [-> | Ne]; [lia|].
    assert (N53 : (Z.abs n < 2 ^ 53)%Z).
    { apply O, (coprime_to_even_is_odd n e); [lia | exact G]. }
    assert (L : (2 ^ e <= Z.abs n * 2 ^ 64)%Z).
    { apply (Z.mul_le_mono_pos_r _ _ b); [lia|].
      replace (Z.abs n * 2 ^ 64 * b)%Z
        with (Z.abs a * 2 ^ e * 2 ^ 64)%Z by (rewrite <- A; ring).
      nia. }
    assert (Lt : (2 ^ e < 2 ^ 117)%Z) by nia.
    apply Z.pow_lt_mono_r_iff in Lt; lia. }
  assert (Pr : (0 < 2 ^ (116 - e))%Z) by (apply Z.pow_pos_nonneg; lia).
  assert (S116 : (2 ^ 116 = 2 ^ e * 2 ^ (116 - e))%Z).
  { rewrite <- Z.pow_add_r by lia. f_equal. lia. }
  exists (n * 2 ^ (116 - e))%Z. split.
  - rewrite S116.
    replace (a * (2 ^ e * 2 ^ (116 - e)))%Z
      with (a * 2 ^ e * 2 ^ (116 - e))%Z by ring.
    rewrite <- C. ring.
  - rewrite Z.abs_mul, (Z.abs_eq (2 ^ (116 - e))) by lia.
    assert (U : (Z.abs n <= 2 ^ 64 * 2 ^ e)%Z).
    { apply (Z.mul_le_mono_pos_r _ _ b); [lia|]. rewrite A. nia. }
    replace (2 ^ 180)%Z with (2 ^ 64 * 2 ^ e * 2 ^ (116 - e))%Z.
    + apply Z.mul_le_mono_nonneg_r; [lia | exact U].
    + rewrite <- !Z.pow_add_r by lia. f_equal. lia.
Qed.

(** An ordinary price is a multiple of 2^-116 of size 2^64 at most. *)
Lemma ordinary_price_on_grid (q : Q) :
  ordinary_price q = true ->
  exists k : Z, (q == k # 2 ^ 116)%Q /\ (Z.abs k <= 2 ^ 180)%Z.
Proof.
  intros H. unfold ordinary_price in H. apply andb_true_iff in H as [B M].
  unfold binary64_value in B. apply andb_true_iff in B as [P O].
  unfold moderate in M. apply orb_true_iff in M as [Z | M].
  { apply Qeq_bool_eq in Z. exists 0%Z. split; [rewrite Z; reflexivity | lia]. }
  apply andb_true_iff in M as [Lo Hi]. apply Qle_bool_imp_le in Lo, Hi.
  unfold Qle in Lo, Hi. cbn [Qnum Qden] in Lo, Hi.
  change (Zpos (2 ^ 64)) with (2 ^ 64)%Z in Lo.
  pose proof (Qred_correct q) as C. unfold Qeq in C.
  pose proof (gcd_Qred q) as G.
  destruct (power_of_two_spec _ P) as [e [He E]]. rewrite E in C, G.
  destruct (grid_of_fraction (Qnum q) (Zpos (Qden q)) (Qnum (Qred q)) e)
    as [k [K1 K2]]; try assumption; try lia.
  - intros Odd. destruct (Qnum (Qred q)) as [|p|p]; [discriminate | |];
      rewrite (odd_part_odd p) in O by exact Odd;
      apply Z.ltb_lt in O; lia.
  - exists k. split; [|exact K2]. unfold Qeq. cbn [Qnum Qden].
    change (Zpos (2 ^ 116)) with (2 ^ 116)%Z. exact K1.
Qed.

(** Two ordinary prices that differ do so by 2^-116 at least and by 2^65
    at most: their difference neither underflows nor overflows in
    float64. *)
Lemma ordinary_prices_differ_visibly (p q : Q) :
  ordinary_price p = true -> ordinary_price q = true -> (q < p)%Q ->
  (1 # 2 ^ 116 <= p - q)%Q /\ (p - q <= 2 ^ 65 # 1)%Q.
Proof.
  intros Hp Hq Lt.
  destruct (ordinary_price_on_grid p Hp) as [k [Ek Bk]].
  destruct (ordinary_price_on_grid q Hq) as [j [Ej Bj]].
  rewrite Ek, Ej in *. clear Ek Ej Hp Hq.
  unfold Qlt, Qle, Qminus, Qplus, Qopp in *. cbn [Qnum Qden] in *.
  rewrite Pos2Z.inj_mul.
  set (G := Zpos (2 ^ 116)) in *.
  assert (HG : G = (2 ^ 116)%Z) by reflexivity.
  assert (PG : (0 < G)%Z) by (unfold G; lia).
  assert (JK : (j < k)%Z) by nia.
  split; [nia|].
  assert (D : (k - j <= 2 ^ 181)%Z) by lia.
  assert (W : ((k - j) * 1 <= 2 ^ 65 * G)%Z).
  { rewrite HG, <- Z.pow_add_r by lia. change (65 + 116)%Z with 181%Z. lia. }
  nia.
Qed.

(** ** The RSI column *)



Lemma finite_zero (b : bool) : finite (zero b) = true.
Proof. now destruct b. Qed.

Lemma finite_fadd (x y : fval) :
  finite x = true -> finite y = true -> finite (fadd x y) = true.
Proof. destruct x, y; simpl; intros; congruence. Qed.

Lemma finite_fneg (x : fval) : finite x = true -> finite (fneg x) = true.
Proof.
  destruct x; simpl; try congruence. intros _. now destruct (Qeq_bool q 0).
Qed.

Lemma finite_fsub (x y : fval) :
  finite x = true -> finite y = true -> finite (fsub x y) = true.
Proof. intros Hx Hy. apply finite_fadd; [assumption | now apply finite_fneg]. Qed.

Lemma finite_fmul (x y : fval) :
  finite x = true -> finite y = true -> finite (fmul x y) = true.
Proof.
  destruct x, y; simpl; try congruence; intros _ _;
    repeat match goal with
           | |- context [if ?b then _ else _] => destruct b
           end; try reflexivity; apply finite_zero.
Qed.

Lemma finite_ewm_from (alpha : Q) (s : series) :
  Forall (fun x => finite x = true) s ->
  forall p, finite p = true ->
  Forall (fun x => finite x = true) (ewm_from alpha p s).
Proof.
  induction 1 as [|x s Hx _ IH]; intros p Hp; cbn [ewm_from]; constructor.
  - apply finite_fadd; now apply finite_fmul.
  - apply IH. apply finite_fadd; now apply finite_fmul.
Qed.

Lemma finite_ewm_mean (span : nat) (s : series) :
  Forall (fun x => finite x = true) s ->
  Forall (fun x => finite x = true) (ewm_mean span s).
Proof.
  intros [|x s' Hx H]; simpl; constructor; [assumption|].
  now apply finite_ewm_from.
Qed.

Lemma finite_zip_fsub (a : series) :
  Forall (fun x => finite x = true) a ->
  forall b, Forall (fun x => finite x = true) b ->
  Forall (fun x => finite x = true) (zip_with fsub a b).
Proof.
  induction 1 as [|x a Hx _ IH]; intros b Hb; simpl; [constructor|].
  destruct Hb as [|y b Hy Hb]; constructor.
  - now apply finite_fsub.
  - now apply IH.
Qed.


Lemma finite_prices (prices : list (Z * Q)) :
  Forall (fun x => finite x = true) (price_column prices).
Proof. unfold price_column. apply Forall_map, Forall_forall. reflexivity. Qed.

Lemma finite_macd (prices : list (Z * Q)) :
  Forall (fun x => finite x = true) (f_macd (calculate_indicators prices)).
Proof.
  simpl. apply finite_zip_fsub; apply finite_ewm_mean, finite_prices.
Qed.

Lemma finite_signal (prices : list (Z * Q)) :
  Forall (fun x => finite x = true) (f_signal (calculate_indicators prices)).
Proof. simpl. apply finite_ewm_mean. apply (finite_macd prices). Qed.

Lemma length_macd (prices : list (Z * Q)) :
  length (f_macd (calculate_indicators prices)) = length prices.
Proof.
  simpl. rewrite length_zip_with; rewrite !length_ewm_mean;
    [apply length_map | reflexivity].
Qed.

Lemma length_signal (prices : list (Z * Q)) :
  length (f_signal (calculate_indicators prices)) = length prices.
Proof.
  change (f_signal (calculate_indicators prices))
    with (ewm_mean 9 (f_macd (calculate_indicators prices))).
  rewrite length_ewm_mean. apply length_macd.
Qed.

Lemma length_loss_column (prices : list (Z * Q)) :
  length (loss_column prices) = length prices.
Proof.
  unfold loss_column, loss_of, neg, where_.
  now rewrite length_map, length_rolling_mean, length_map, length_diff,
    length_map.
Qed.

Lemma length_rsi (prices : list (Z * Q)) :
  length (f_rsi (calculate_indicators prices)) = length prices.
Proof.
  change (f_rsi (calculate_indicators prices))
    with (rsi_of (zip_with fdiv (gain_column prices) (loss_column prices))).
  unfold rsi_of. rewrite length_map, length_zip_with;
    [apply length_gain_column|].
  now rewrite length_gain_column, length_loss_column.
Qed.

Lemma fsum_total (s : series) :
  Forall fin s ->
  forall a, exists t, fold_left fadd s (Fin a) = Fin t /\ (t == a + total s)%Q.
Proof.
  induction 1 as [|x s [q ->] _ IH]; intros a; simpl.
  - exists a. split; [reflexivity | lra].
  - destruct (IH (a + q)%Q) as [t [E Ht]]. exists t. split; [exact E | lra].
Qed.

Lemma total_nonneg (s : series) :
  Forall nonneg_fin s ->
  (0 <= total s)%Q
  /\ ((total s == 0)%Q <-> Forall (fun x => is_zero x = true) s).
Proof.
  induction 1 as [|x s [q [-> Hq]] _ [IH0 IH]]; simpl.
  - split; [lra | split; [constructor | lra]].
  - split; [lra|]. rewrite Forall_cons_iff. simpl. rewrite <- IH, Qeq_bool_iff.
    split; [intros E; split; lra | intros [E1 E2]; lra].
Qed.

Lemma total_nonpos (s : series) :
  Forall nonpos_fin s ->
  (total s <= 0)%Q
  /\ ((total s == 0)%Q <-> Forall (fun x => is_zero x = true) s).
Proof.
  induction 1 as [|x s [q [-> Hq]] _ [IH0 IH]]; simpl.
  - split; [lra | split; [constructor | lra]].
  - split; [lra|]. rewrite Forall_cons_iff. simpl. rewrite <- IH, Qeq_bool_iff.
    split; [intros E; split; lra | intros [E1 E2]; lra].
Qed.

Lemma is_zero_zero (b : bool) : is_zero (zero b) = true.
Proof. now destruct b. Qed.

Lemma is_zero_mean (s : Q) :
  is_zero (fdiv (Fin s) (of_nat 14)) = Qeq_bool s 0.
Proof.
  unfold of_nat. rewrite (fdiv_by_positive _ _ fourteen_positive).
  destruct (Qeq_bool s 0) eqn:E; [apply is_zero_zero|].
  apply Qeq_bool_neq in E. simpl. apply Qeq_bool_zero_false. intros H.
  apply E. rewrite <- (Qdiv_mult_l s (inject_Z (Z.of_nat 14))) by discriminate.
  unfold Qdiv in *. rewrite <- Qmult_assoc, (Qmult_comm (inject_Z _)), Qmult_assoc.
  rewrite H. lra.
Qed.

Lemma is_zero_fneg (x : fval) : is_zero (fneg x) = is_zero x.
Proof.
  destruct x as [q| | |]; simpl; try reflexivity.
  destruct (Qeq_bool q 0) eqn:E; [reflexivity|]. simpl.
  apply Qeq_bool_neq in E. apply Qeq_bool_zero_false. lra.
Qed.

Lemma window_where (cond : fval -> bool) (other : fval) (w i : nat)
    (s : series) :
  window_at w i (where_ cond other s) = where_ cond other (window_at w i s).
Proof. unfold window_at, where_. now rewrite skipn_map, firstn_map. Qed.

Lemma mean_is_zero_iff (W : series) :
  Forall fin W ->
  ((total W == 0)%Q <-> Forall (fun x => is_zero x = true) W) ->
  is_zero (fdiv (fsum W) (of_nat 14)) = true
  <-> Forall (fun x => is_zero x = true) W.
Proof.
  intros F T. destruct (fsum_total W F 0%Q) as [t [E Ht]].
  unfold fsum. rewrite E, is_zero_mean, Qeq_bool_iff, <- T.
  split; intros H; lra.
Qed.

Lemma gain_zero_iff (delta : series) (i : nat) (g : fval) :
  Forall delta_like delta -> 13 <= i -> i < length delta ->
  nth_error (gain_of delta) i = Some g ->
  is_zero g = true
  <-> Forall (fun x => is_zero x = true)
        (where_ (fun d => fgt d (Fin 0)) (Fin 0) (window_at 14 i delta)).
Proof.
  intros D Late L G. unfold gain_of in G.
  rewrite nth_error_rolling_mean in G
    by (unfold where_; now rewrite length_map).
  assert (E : (i + 1 <? 14) = false) by (apply Nat.ltb_ge; lia).
  rewrite E in G. clear E.
  pose proof (Forall_window 14 i _ (gains_nonneg _ D)) as W.
  rewrite no_nan_among_fin in G
    by (eapply Forall_impl; [apply nonneg_is_fin | exact W]).
  injection G as <-. rewrite <- window_where.
  apply mean_is_zero_iff.
  - eapply Forall_impl; [apply nonneg_is_fin | exact W].
  - now apply total_nonneg.
Qed.

Lemma loss_zero_iff (delta : series) (i : nat) (l : fval) :
  Forall delta_like delta -> 13 <= i -> i < length delta ->
  nth_error (loss_of delta) i = Some l ->
  is_zero l = true
  <-> Forall (fun x => is_zero x = true)
        (where_ (fun d => flt d (Fin 0)) (Fin 0) (window_at 14 i delta)).
Proof.
  intros D Late L G. unfold loss_of, neg in G. rewrite nth_error_map in G.
  rewrite nth_error_rolling_mean in G
    by (unfold where_; now rewrite length_map).
  assert (E : (i + 1 <? 14) = false) by (apply Nat.ltb_ge; lia).
  rewrite E in G. clear E.
  pose proof (Forall_window 14 i _ (losses_nonpos _ D)) as W.
  rewrite no_nan_among_fin in G
    by (eapply Forall_impl; [apply nonpos_is_fin | exact W]).
  injection G as <-. rewrite is_zero_fneg, <- window_where.
  apply mean_is_zero_iff.
  - eapply Forall_impl; [apply nonpos_is_fin | exact W].
  - now apply total_nonpos.
Qed.

Lemma unchanged_iff (x : fval) :
  delta_like x ->
  (is_zero (if fgt x (Fin 0) then x else Fin 0) = true
   /\ is_zero (if flt x (Fin 0) then x else Fin 0) = true)
  <-> unchanged x.
Proof.
  intros [-> | [q ->]].
  - simpl. split; [now left | now split].
  - destruct (fgt (Fin q) (Fin 0)) eqn:G, (flt (Fin q) (Fin 0)) eqn:L;
      try apply fgt_zero in G; try apply flt_zero in L; simpl;
      rewrite ?Qeq_bool_iff.
    + lra.
    + split.
      * intros [E _]. lra.
      * intros [F | [p [E Hp]]]; [discriminate|]. injection E as <-. lra.
    + split.
      * intros [_ E]. lra.
      * intros [F | [p [E Hp]]]; [discriminate|]. injection E as <-. lra.
    + assert (Z : (q == 0)%Q).
      { destruct (Qcompare_spec q 0) as [E | E | E]; [exact E | |].
        - apply flt_zero in E. congruence.
        - apply fgt_zero in E. congruence. }
      split; [intros _; right; now exists q | now split].
Qed.

Lemma window_unchanged_iff (W : series) :
  Forall delta_like W ->
  (Forall (fun x => is_zero x = true)
     (where_ (fun d => fgt d (Fin 0)) (Fin 0) W)
   /\ Forall (fun x => is_zero x = true)
        (where_ (fun d => flt d (Fin 0)) (Fin 0) W))
  <-> Forall unchanged W.
Proof.
  unfold where_. rewrite !Forall_map.
  induction 1 as [|x W Hx _ IH]; [split; [constructor | split; constructor]|].
  rewrite !Forall_cons_iff, <- IH, <- (unchanged_iff x Hx). tauto.
Qed.

Lemma nth_error_diff_from (s : series) (p : fval) (k : nat) :
  nth_error (diff_from p s) (S k)
  = match nth_error s k, nth_error s (S k) with
    | Some a, Some b => Some (fsub b a)
    | _, _ => None
    end.
Proof.
  revert p k; induction s as [|x s IH]; intros p k.
  - now destruct k.
  - cbn [diff_from nth_error]. destruct k as [|k].
    + destruct s; reflexivity.
    + apply IH.
Qed.

Lemma nth_error_diff (s : series) (k : nat) :
  nth_error (diff s) (S k)
  = match nth_error s k, nth_error s (S k) with
    | Some a, Some b => Some (fsub b a)
    | _, _ => None
    end.
Proof.
  destruct s as [|x s]; [now destruct k|].
  cbn [diff nth_error]. destruct k as [|k].
  - destruct s; reflexivity.
  - cbn [nth_error]. apply nth_error_diff_from.
Qed.

Lemma nth_error_diff_first (s : series) (x : fval) :
  nth_error (diff s) 0 = Some x -> x = NaN.
Proof. destruct s; simpl; congruence. Qed.

Lemma unchanged_fsub (a b : Q) :
  unchanged (fsub (Fin b) (Fin a)) <-> (b == a)%Q.
Proof.
  unfold fsub, fneg, unchanged.
  destruct (Qeq_bool a 0) eqn:E; simpl.
  - apply Qeq_bool_eq in E. split.
    + intros [F | [q [H Hq]]]; [discriminate|]. injection H as <-. lra.
    + intros H. right. eexists. split; [reflexivity | lra].
  - split.
    + intros [F | [q [H Hq]]]; [discriminate|]. injection H as <-. lra.
    + intros H. right. eexists. split; [reflexivity | lra].
Qed.

Lemma Forall_nth_error {A : Type} (P : A -> Prop) (l : list A) :
  Forall P l <-> forall k x, nth_error l k = Some x -> P x.
Proof.
  rewrite Forall_forall. split.
  - intros H k x E. apply H. eapply nth_error_In, E.
  - intros H x Hx. apply In_nth_error in Hx as [k E]. eapply H, E.
Qed.

Lemma nth_error_window (w i : nat) (s : series) (k : nat) :
  nth_error (window_at w i s) k
  = if k <? w then nth_error s (i + 1 - w + k) else None.
Proof. unfold window_at. now rewrite nth_error_firstn, nth_error_skipn. Qed.

Lemma nth_error_delta (prices : list (Z * Q)) (k : nat) :
  nth_error (diff (price_column prices)) (S k)
  = match nth_error prices k, nth_error prices (S k) with
    | Some a, Some b => Some (fsub (Fin (snd b)) (Fin (snd a)))
    | _, _ => None
    end.
Proof.
  rewrite nth_error_diff. unfold price_column. rewrite !nth_error_map.
  destruct (nth_error prices k), (nth_error prices (S k)); reflexivity.
Qed.

Lemma flat_window_iff (prices : list (Z * Q)) (i : nat) :
  13 <= i ->
  Forall unchanged (window_at 14 i (diff (price_column prices)))
  <-> flat_window prices i.
Proof.
  intros Late. rewrite Forall_nth_error. split.
  - intros F [|j] Lo Hi; [exact I|]. unfold same_as_before.
    destruct (nth_error prices j) as [a|] eqn:Ea; [|exact I].
    destruct (nth_error prices (S j)) as [b|] eqn:Eb; [|exact I].
    apply unchanged_fsub. apply (F (S j - (i - 13))).
    rewrite nth_error_window.
    assert (E : (S j - (i - 13) <? 14) = true) by (apply Nat.ltb_lt; lia).
    rewrite E. replace (i + 1 - 14 + (S j - (i - 13))) with (S j) by lia.
    now rewrite nth_error_delta, Ea, Eb.
  - intros F k x E. rewrite nth_error_window in E.
    destruct (k <? 14) eqn:K; [|discriminate]. apply Nat.ltb_lt in K.
    assert (Lo : i - 13 <= i + 1 - 14 + k) by lia.
    assert (Hi : i + 1 - 14 + k <= i) by lia.
    specialize (F _ Lo Hi).
    destruct (i + 1 - 14 + k) as [|j].
    + left. eapply nth_error_diff_first, E.
    + rewrite nth_error_delta in E. unfold same_as_before in F.
      destruct (nth_error prices j) as [a|]; [|discriminate].
      destruct (nth_error prices (S j)) as [b|]; [|discriminate].
      injection E as <-. now apply unchanged_fsub.
Qed.

Lemma both_zero_iff_flat (prices : list (Z * Q)) (i : nat) (g l : fval) :
  13 <= i -> i < length prices ->
  nth_error (gain_column prices) i = Some g ->
  nth_error (loss_column prices) i = Some l ->
  (is_zero g = true /\ is_zero l = true) <-> flat_window prices i.
Proof.
  intros Late Hi G L. destruct (delta_of_prices prices) as [D Len].
  rewrite <- Len in Hi.
  rewrite (gain_zero_iff _ i g D Late Hi G), (loss_zero_iff _ i l D Late Hi L).
  rewrite window_unchanged_iff by now apply Forall_window.
  now apply flat_window_iff.
Qed.




(** Why C1 is stated for prices of ordinary size: on fourteen prices that
    swing between 0 and 1.7e308 the window sums of float64 overflow, the
    mean gain and the mean loss are both infinite and the RSI at index 13
    is missing although the price changes in every row. *)
Lemma swinging_history_rsi_missing_at_13 :
  nth_error (Binary64.gain Binary64.swinging) 13 = Some PrimFloat.infinity
  /\ nth_error (Binary64.loss Binary64.swinging) 13 = Some PrimFloat.infinity
  /\ nth_error (Binary64.rsi Binary64.swinging) 13 = Some PrimFloat.nan.
Proof. repeat split; vm_compute; reflexivity. Qed.


(** * Further properties of the code *)

(** ** Tokens and the standalone-word check *)

Lemma split_from_at_space (a : str) (c : ascii) (b : str) :
  is_space c = true ->
  forall cur, split_from cur (a ++ c :: b) = split_from cur a ++ split_from [] b.
Proof.
  intros Sc. induction a as [|x a IH]; intros cur; simpl.
  - now rewrite Sc.
  - destruct (is_space x); [|apply IH]. now rewrite IH, app_assoc.
Qed.

Lemma split_from_no_space (t : str) :
  no_space t = true -> forall cur, split_from cur t = flush (cur ++ t).
Proof.
  induction t as [|x t IH]; intros N cur; simpl.
  - now rewrite app_nil_r.
  - simpl in N. apply andb_true_iff in N as [Nx Nt].
    apply negb_true_iff in Nx. rewrite Nx, (IH Nt).
    now rewrite <- app_assoc.
Qed.

Lemma split_padded (t : str) : split (padded t) = split t.
Proof.
  unfold split, padded, sp, lit. simpl.
  rewrite (split_from_at_space t " "%char [] eq_refl). simpl.
  apply app_nil_r.
Qed.

Lemma word_term_tokens (term title_lower : str) :
  truthy term = true ->
  no_space term = true ->
  (word_term term title_lower = true -> In term (split title_lower))
  /\ (plain_spaces title_lower = true ->
      In term (split title_lower) -> word_term term title_lower = true).
Proof.
  intros T N. split.
  - intros W. unfold word_term in W. apply contains_padded in W as [b [a E]].
    rewrite <- split_padded, E. unfold split, sp, lit. simpl.
    rewrite (split_from_at_space b " "%char _ eq_refl).
    rewrite (split_from_at_space term " "%char _ eq_refl).
    rewrite (split_from_no_space term N). simpl.
    apply in_or_app. right. apply in_or_app. left.
    destruct term; [discriminate | now left].
  - intros P H. unfold split in H.
    destruct (split_from_between_spaces title_lower P [] [] term H)
      as [b [a E]].
    unfold word_term. apply contains_padded. now exists b, a.
Qed.

(** X1. For a non-empty term without whitespace, the standalone-word check
    accepts a title only if the term is one of its whitespace-separated
    tokens, at any position; when the only whitespace of the title is the
    plain space, it accepts every title that has the term as a token. *)
Theorem word_check_accepts_whole_tokens (term title_lower : str) :
  truthy term = true ->
  no_space term = true ->
  (word_term term title_lower = true -> In term (split title_lower))
  /\ (plain_spaces title_lower = true ->
      In term (split title_lower) -> word_term term title_lower = true).
Proof. apply word_term_tokens. Qed.

Lemma word_check_accepts_whole_tokens_witness :
  (word_term (lit "ada") (lit "canada eyes new ada regulation") = true ->
   In (lit "ada") (split (lit "canada eyes new ada regulation")))
  /\ (plain_spaces (lit "canada eyes new ada regulation") = true ->
      In (lit "ada") (split (lit "canada eyes new ada regulation")) ->
      word_term (lit "ada") (lit "canada eyes new ada regulation") = true).
Proof. apply word_check_accepts_whole_tokens; reflexivity. Defined.

Lemma no_space_lower (s : str) :
  no_space s = true -> no_space (lower s) = true.
Proof.
  unfold no_space, lower. rewrite !forallb_forall. intros H c Hc.
  apply in_map_iff in Hc as [d [<- Hd]].
  destruct (lower_char_space d) as [E _]. rewrite E. now apply H.
Qed.

(** X2. On a title whose only whitespace is the plain space, and for a
    coin name and ticker that are non-empty and free of whitespace, a
    headline is kept exactly when the lowercased name or ticker is a token
    of the lowercased title, wherever it stands: the limit of six tokens
    changes nothing there. *)
Theorem keeps_iff_token_on_plain_titles (coin_name ticker title : str) :
  plain_spaces title = true ->
  truthy coin_name = true -> no_space coin_name = true ->
  truthy ticker = true -> no_space ticker = true ->
  keeps coin_name ticker title = true
  <-> In (lower coin_name) (split (lower title))
      \/ In (lower ticker) (split (lower title)).
Proof.
  intros P Tn Nn Tt Nt.
  assert (Pl : plain_spaces (lower title) = true) by now apply plain_spaces_lower.
  assert (Ln : truthy (lower coin_name) = true) by now destruct coin_name.
  assert (Lt : truthy (lower ticker) = true) by now destruct ticker.
  assert (Sn : no_space (lower coin_name) = true) by now apply no_space_lower.
  assert (St : no_space (lower ticker) = true) by now apply no_space_lower.
  destruct (word_term_tokens (lower coin_name) (lower title) Ln Sn) as [N1 N2].
  destruct (word_term_tokens (lower ticker) (lower title) Lt St) as [T1 T2].
  unfold keeps, first6_check, word_check.
  rewrite orb_true_iff, !any_of_two. unfold first6_term. rewrite !mem_In.
  split.
  - intros [[H | H] | [H | H]].
    + left. apply In_firstn_nth_error in H as [k [_ H]].
      eapply nth_error_In, H.
    + right. apply In_firstn_nth_error in H as [k [_ H]].
      eapply nth_error_In, H.
    + left. now apply N1.
    + right. now apply T1.
  - intros [H | H]; right; [left; now apply N2 | right; now apply T2].
Qed.

Lemma keeps_iff_token_on_plain_titles_witness :
  keeps (lit "Bitcoin") (lit "BTC")
        (lit "Why the market now looks past Bitcoin") = true
  <-> In (lower (lit "Bitcoin"))
         (split (lower (lit "Why the market now looks past Bitcoin")))
      \/ In (lower (lit "BTC"))
            (split (lower (lit "Why the market now looks past Bitcoin"))).
Proof. apply keeps_iff_token_on_plain_titles; reflexivity. Defined.

(** ** Titles of the headlines *)

Lemma lstrip_idempotent (s : str) : lstrip (lstrip s) = lstrip s.
Proof.
  induction s as [|c s IH]; simpl; [reflexivity|].
  destruct (is_space c) eqn:E; [exact IH | simpl; now rewrite E].
Qed.

Lemma lstrip_before_nonspace (w : str) (x : ascii) (r : str) :
  is_space x = false -> lstrip (w ++ x :: r) = lstrip w ++ x :: r.
Proof.
  intros X. induction w as [|c w IH]; simpl.
  - now rewrite X.
  - destruct (is_space c); [exact IH | reflexivity].
Qed.

Lemma lstrip_shape (s : str) :
  lstrip s = [] \/ exists x r, lstrip s = x :: r /\ is_space x = false.
Proof.
  induction s as [|c s IH]; simpl; [now left|].
  destruct (is_space c) eqn:E; [exact IH | right; now exists c, s].
Qed.

Lemma strip_trimmed (s : str) : trimmed (strip s).
Proof.
  unfold trimmed, strip. split.
  - destruct (lstrip_shape s) as [-> | [x [r [-> X]]]]; [reflexivity|].
    unfold rstrip. simpl rev.
    rewrite (lstrip_before_nonspace (rev r) x [] X).
    rewrite rev_app_distr. simpl. now rewrite X.
  - generalize (lstrip s). intros u. unfold rstrip.
    now rewrite rev_involutive, lstrip_idempotent.
Qed.

Lemma In_scan_entries (entries : list entry) (coin_name ticker src : str)
    (h : headline) :
  In h (scan_entries entries coin_name ticker src)
  <-> exists e, In e entries
                /\ keeps coin_name ticker (e_title e) = true
                /\ h = headline_of src e.
Proof.
  rewrite scan_entries_filter, in_map_iff. split.
  - intros [e [<- He]]. apply filter_In in He as [He K]. now exists e.
  - intros [e [He [K ->]]]. exists e. split; [reflexivity|].
    apply filter_In. now split.
Qed.

(** X3. Every headline [fetch_rss_news] returns comes from an entry of
    the feed that the matcher keeps, carries the given source name and the
    entry's link, and its title is the entry's title without leading or
    trailing whitespace; there are never more headlines than entries. *)
Theorem fetch_rss_news_headlines_trimmed
    (feedparser_parse : str -> list entry)
    (feed_url coin_name ticker source_name : str) :
  let news :=
    fetch_rss_news feedparser_parse feed_url coin_name ticker source_name in
  length news <= length (feedparser_parse feed_url)
  /\ forall title link source,
       In (title, link, source) news ->
       trimmed title /\ source = source_name
       /\ exists e, In e (feedparser_parse feed_url)
                    /\ title = strip (e_title e) /\ link = e_link e
                    /\ keeps coin_name ticker (e_title e) = true.
Proof.
  intros news. subst news. unfold fetch_rss_news. split.
  - rewrite scan_entries_filter, length_map. apply filter_length_le.
  - intros title link source H.
    apply In_scan_entries in H as [e [He [K E]]].
    unfold headline_of in E. injection E as -> -> ->.
    split; [apply strip_trimmed|]. split; [reflexivity|]. now exists e.
Qed.

(** ** The third source *)

Lemma coindesk_gate (coin_name : str) :
  is_feed_url (coindesk_url coin_name)
  = contains (lit "rss") (lower coin_name)
    || contains (lit "feed") (lower coin_name).
Proof.
  unfold is_feed_url, coindesk_url.
  generalize (lower coin_name). intros x.
  destruct x as [|a [|b [|c x]]]; reflexivity.
Qed.

(** X4. [fetch_crypto_news] takes its five headlines from the matches of
    Cointelegraph, then Bitcoin.com; the Coindesk search URL is fetched,
    last, only when the lowercased coin name itself contains "rss" or
    "feed". *)
Theorem coindesk_consulted_only_for_feed_names
    (feedparser_parse : str -> list entry) (coin_name ticker : str) :
  let from source_name url :=
    matched feedparser_parse coin_name ticker (source_name, url) in
  fetch_crypto_news feedparser_parse coin_name ticker
  = firstn 5
      (from (lit "Cointelegraph")
            (lit "https://cointelegraph.com/rss/tag/" ++ lower coin_name)
       ++ from (lit "Bitcoin.com")
               (lit "https://news.bitcoin.com/feed/?s=" ++ lower coin_name)
       ++ (if contains (lit "rss") (lower coin_name)
              || contains (lit "feed") (lower coin_name)
           then from (lit "Coindesk") (coindesk_url coin_name)
           else [])).
Proof.
  intros from. subst from. rewrite fetch_crypto_news_pool. f_equal.
  unfold matched_pool, fetched_sources, sources. cbn [filter snd].
  rewrite cointelegraph_is_feed, bitcoin_com_is_feed.
  fold (coindesk_url coin_name). rewrite coindesk_gate.
  destruct (contains (lit "rss") (lower coin_name)
            || contains (lit "feed") (lower coin_name));
    cbn [flat_map]; now rewrite ?app_nil_r.
Qed.

(** ** The unguarded loops of main.py and pages/News.py *)

Section UnguardedFacts.

Variable feedparser_parse : str -> list entry.
Variable sentiment_model : str -> option (str * Q).

Lemma classify_entries_spec (source : str) (entries : list entry) :
  forall headlines,
    (forallb (classified sentiment_model) (map (pair source) entries) = false
     /\ classify_entries sentiment_model source entries headlines = None)
    \/ (forallb (classified sentiment_model) (map (pair source) entries) = true
        /\ exists rows,
             classify_entries sentiment_model source entries headlines
             = Some (headlines ++ rows)
             /\ Forall2 (shows sentiment_model) rows (map (pair source) entries)).
Proof.
  induction entries as [|e rest IH]; intros headlines.
  - right. split; [reflexivity|]. exists []. split; [|constructor].
    simpl. now rewrite app_nil_r.
  - cbn [classify_entries map forallb]. unfold classified at 1 3. cbn [snd].
    destruct (sentiment_model (e_title e)) as [[label score]|] eqn:M;
      [|left; now split].
    cbn [andb].
    destruct (IH (headlines
                  ++ [{| n_title := e_title e; n_link := e_link e;
                         n_source := source; n_sentiment := label;
                         n_score := score |}]))
      as [[F N] | [F [rows [E R]]]]; [left; now split|].
    right. split; [exact F|]. eexists (_ :: rows). split.
    + rewrite E. now rewrite <- app_assoc.
    + constructor; [|exact R]. unfold shows. cbn. now rewrite M.
Qed.

Lemma collect_feeds_spec (feeds : list (str * str)) :
  forall headlines,
    (forallb (classified sentiment_model)
             (sent_to_model feedparser_parse feeds) = false
     /\ collect_feeds feedparser_parse sentiment_model feeds headlines = None)
    \/ (forallb (classified sentiment_model)
                (sent_to_model feedparser_parse feeds) = true
        /\ exists rows,
             collect_feeds feedparser_parse sentiment_model feeds headlines
             = Some (headlines ++ rows)
             /\ Forall2 (shows sentiment_model) rows (sent_to_model feedparser_parse feeds)).
Proof.
  induction feeds as [|[source url] rest IH]; intros headlines.
  - right. split; [reflexivity|]. exists []. split; [|constructor].
    simpl. now rewrite app_nil_r.
  - cbn [collect_feeds sent_to_model flat_map fst snd].
    rewrite forallb_app.
    destruct (classify_entries_spec source (firstn 5 (feedparser_parse url))
                headlines) as [[F N] | [F [rows [E R]]]].
    + left. now rewrite F, N.
    + rewrite F, E. cbn [andb].
      destruct (IH (headlines ++ rows)) as [[F' N'] | [F' [rows' [E' R']]]];
        [left; now split|].
      right. split; [exact F'|]. exists (rows ++ rows'). split.
      * rewrite E'. now rewrite app_assoc.
      * now apply Forall2_app.
Qed.

End UnguardedFacts.

Lemma length_sent_to_model (feedparser_parse : str -> list entry)
    (feeds : list (str * str)) :
  length (sent_to_model feedparser_parse feeds) <= 5 * length feeds.
Proof.
  unfold sent_to_model. induction feeds as [|f feeds IH]; [simpl; lia|].
  cbn [flat_map]. rewrite length_app, length_map, length_firstn.
  cbn [length]. lia.
Qed.

Lemma unguarded_run (feedparser_parse : str -> list entry)
    (sentiment_model : str -> option (str * Q)) (feeds : list (str * str)) :
  let sent := sent_to_model feedparser_parse feeds in
  let run := collect_feeds feedparser_parse sentiment_model feeds [] in
  length sent <= 5 * length feeds
  /\ (forallb (classified sentiment_model) sent = false -> run = None)
  /\ (forallb (classified sentiment_model) sent = true ->
      exists rows, run = Some rows
                   /\ Forall2 (shows sentiment_model) rows sent).
Proof.
  intros sent run. subst sent run. split; [apply length_sent_to_model|].
  destruct (collect_feeds_spec feedparser_parse sentiment_model feeds [])
    as [[F N] | [F [rows [E R]]]]; rewrite F.
  - split; [intros _; exact N | discriminate].
  - split; [discriminate|]. intros _. now exists rows.
Qed.

(** X5. [get_news] of main.py sends to the model the first five entries
    of each of its two feeds, ten at most, whether or not they mention the
    coin; when every call succeeds it returns one row per entry, in feed
    order, with the model's label and score; when a single call fails the
    whole request fails: no headline is replaced by a fallback row. *)
Theorem get_news_all_or_nothing (feedparser_parse : str -> list entry)
    (sentiment_model : str -> option (str * Q)) (coin_name : str) :
  let sent := sent_to_model feedparser_parse (api_feeds coin_name) in
  length sent <= 10
  /\ (forallb (classified sentiment_model) sent = false ->
      get_news feedparser_parse sentiment_model coin_name = None)
  /\ (forallb (classified sentiment_model) sent = true ->
      exists rows,
        get_news feedparser_parse sentiment_model coin_name = Some rows
        /\ Forall2 (shows sentiment_model) rows sent).
Proof. exact (unguarded_run feedparser_parse sentiment_model (api_feeds coin_name)). Qed.

(** X6. The general news page classifies the first five entries of each
    of its four feeds, twenty at most, and shows one block per entry in
    feed order; one failing call of the model fails the whole page. *)
Theorem news_page_all_or_nothing (feedparser_parse : str -> list entry)
    (sentiment_model : str -> option (str * Q)) :
  let sent := sent_to_model feedparser_parse general_feeds in
  length sent <= 20
  /\ (forallb (classified sentiment_model) sent = false ->
      news_page feedparser_parse sentiment_model = None)
  /\ (forallb (classified sentiment_model) sent = true ->
      exists rows,
        news_page feedparser_parse sentiment_model = Some rows
        /\ Forall2 (shows sentiment_model) rows sent).
Proof. exact (unguarded_run feedparser_parse sentiment_model general_feeds). Qed.

(** ** When the interpreter has nothing to read *)

Lemma rsi_row (prices : list (Z * Q)) (i : nat) :
  i < length prices ->
  exists r,
    nth_error (f_rsi (calculate_indicators prices)) i = Some r
    /\ (i < 13 -> r = NaN)
    /\ (13 <= i -> (is_nan r = true <-> flat_window prices i)).
Proof.
  intros Hi.
  destruct (columns_at prices i Hi) as [g [l [G [L [R [Early Late]]]]]].
  exists (rsi_formula g l). split; [exact R|]. split.
  - intros E. now destruct (Early E) as [-> ->].
  - intros E. rewrite <- (both_zero_iff_flat prices i g l E Hi G L).
    destruct (Late E) as [[gq [-> Hg]] [-> | [lq [-> Hl]]]].
    + destruct (Qlt_le_dec 0 gq) as [P | Z].
      * destruct (rsi_formula_saturates gq P) as [x [-> _]]. simpl.
        rewrite (Qeq_bool_zero_false gq) by lra.
        split; [discriminate | intros [F _]; discriminate].
      * rewrite rsi_formula_flat by lra. simpl.
        rewrite (Qeq_eq_bool gq 0) by lra. now split.
    + destruct (rsi_formula_finite_loss gq lq Hg Hl) as [x [-> _]]. simpl.
      rewrite (Qeq_bool_zero_false lq) by lra.
      split; [discriminate | intros [_ F]; discriminate].
Qed.

Lemma has_value_false_iff (s : series) :
  has_value s = false <-> forall i x, nth_error s i = Some x -> is_nan x = true.
Proof.
  unfold has_value. split.
  - intros H i x E. apply nth_error_In in E.
    destruct (is_nan x) eqn:N; [reflexivity|].
    assert (T : existsb (fun x => negb (is_nan x)) s = true).
    { apply existsb_exists. exists x. split; [exact E | now rewrite N]. }
    congruence.
  - intros H. destruct (existsb _ s) eqn:T; [|reflexivity].
    apply existsb_exists in T as [x [Hx N]].
    apply In_nth_error in Hx as [i E]. rewrite (H i x E) in N. discriminate.
Qed.

Lemma rsi_has_no_value_iff (prices : list (Z * Q)) :
  has_value (f_rsi (calculate_indicators prices)) = false
  <-> forall i, 13 <= i -> i < length prices -> flat_window prices i.
Proof.
  rewrite has_value_false_iff. split.
  - intros H i Late Hi. destruct (rsi_row prices i Hi) as [r [R [_ F]]].
    apply (F Late). exact (H i r R).
  - intros H i x E.
    assert (Hi : i < length prices).
    { rewrite <- length_rsi. eapply nth_error_in_range, E. }
    destruct (rsi_row prices i Hi) as [r [R [Early F]]].
    rewrite E in R. injection R as <-.
    destruct (Nat.lt_ge_cases i 13) as [Lt | Ge].
    + now rewrite (Early Lt).
    + apply (F Ge). now apply H.
Qed.

Lemma iloc_last_raises_iff (s : series) :
  iloc_last (dropna s) = Raise IndexError <-> has_value s = false.
Proof.
  destruct (has_value s) eqn:H.
  - destruct (iloc_last_dropna s H) as [x [E _]]. rewrite E.
    split; discriminate.
  - split; [reflexivity|]. intros _. unfold iloc_last.
    assert (D : dropna s = []).
    { unfold dropna. destruct (filter _ s) as [|x r] eqn:F; [reflexivity|].
      assert (Hx : In x (filter (fun x => negb (is_nan x)) s))
        by (rewrite F; now left).
      apply filter_In in Hx as [Hx N].
      assert (T : has_value s = true)
        by (apply existsb_exists; now exists x).
      congruence. }
    now rewrite D.
Qed.

Lemma finite_has_value (s : series) :
  truthy s = true -> Forall (fun x => finite x = true) s -> has_value s = true.
Proof.
  intros T F. destruct s as [|x s]; [discriminate|].
  inversion F as [|? ? Hx _]; subst. simpl. now destruct x.
Qed.

Lemma truthy_length {A : Type} (l : list A) : truthy l = true <-> 0 < length l.
Proof. destruct l; simpl; split; intros; (lia || discriminate || reflexivity). Qed.

Lemma interpret_outcome (prices : list (Z * Q)) :
  (interpret_indicators (calculate_indicators prices) = Raise IndexError
   <-> forall i, 13 <= i -> i < length prices -> flat_window prices i)
  /\ ((exists summary,
          interpret_indicators (calculate_indicators prices) = Ok summary)
      <-> exists i, 13 <= i /\ i < length prices /\ ~ flat_window prices i).
Proof.
  rewrite <- rsi_has_no_value_iff.
  set (df := calculate_indicators prices).
  assert (Ok_case : has_value (f_rsi df) = true ->
                    exists summary, interpret_indicators df = Ok summary).
  { intros Hr.
    assert (T : truthy prices = true).
    { destruct prices; [discriminate | reflexivity]. }
    assert (Hm : has_value (f_macd df) = true).
    { apply finite_has_value; [|apply finite_macd].
      apply truthy_length. unfold df. rewrite length_macd.
      now apply truthy_length. }
    assert (Hs : has_value (f_signal df) = true).
    { apply finite_has_value; [|apply finite_signal].
      apply truthy_length. unfold df. rewrite length_signal.
      now apply truthy_length. }
    destruct (iloc_last_dropna _ Hr) as [r [Er _]].
    destruct (iloc_last_dropna _ Hm) as [m [Em _]].
    destruct (iloc_last_dropna _ Hs) as [g [Eg _]].
    eexists. unfold interpret_indicators. rewrite Er, Em, Eg. reflexivity. }
  assert (Raise_case : has_value (f_rsi df) = false ->
                       interpret_indicators df = Raise IndexError).
  { intros Hr. apply iloc_last_raises_iff in Hr.
    unfold interpret_indicators. now rewrite Hr. }
  split.
  - split; [|exact Raise_case]. intros R.
    destruct (has_value (f_rsi df)) eqn:H; [|reflexivity].
    destruct (Ok_case eq_refl) as [s E]. congruence.
  - assert (V : has_value (f_rsi df) = true
                <-> exists i, 13 <= i /\ i < length prices
                              /\ ~ flat_window prices i).
    { split.
      - intros H. apply existsb_exists in H as [x [Hx N]].
        apply In_nth_error in Hx as [i E].
        assert (Hi : i < length prices).
        { rewrite <- length_rsi. eapply nth_error_in_range, E. }
        destruct (rsi_row prices i Hi) as [r [R [Early F]]].
        fold df in R. rewrite E in R. injection R as <-.
        destruct (Nat.lt_ge_cases i 13) as [Lt | Ge].
        + rewrite (Early Lt) in N. discriminate.
        + exists i. split; [exact Ge|]. split; [exact Hi|]. intros Fl.
          apply (F Ge) in Fl. rewrite Fl in N. discriminate.
      - intros [i [Ge [Hi NF]]].
        destruct (has_value (f_rsi df)) eqn:H; [reflexivity|]. exfalso.
        apply NF. unfold df in H.
        exact (proj1 (rsi_has_no_value_iff prices) H i Ge Hi). }
    rewrite <- V. split; [|exact Ok_case]. intros [s E].
    destruct (has_value (f_rsi df)) eqn:H; [reflexivity|].
    rewrite (Raise_case eq_refl) in E. discriminate.
Qed.

(** C2, as the code behaves: on the frame of every non-empty history of
    fewer than 14 points the RSI column holds no value and
    [interpret_indicators] raises IndexError; the caller lets such a
    history through, so the chart block of the script ends in the
    exception, while for the empty history it shows "Chart data
    unavailable". *)
Theorem short_history_interpreter_raises (prices : list (Z * Q)) :
  truthy prices = true ->
  length prices < 14 ->
  has_value (f_rsi (calculate_indicators prices)) = false
  /\ interpret_indicators (calculate_indicators prices) = Raise IndexError
  /\ chart_section prices = Raise IndexError
  /\ chart_section [] = Ok ChartUnavailable.
Proof.
  intros T Short.
  assert (R : interpret_indicators (calculate_indicators prices)
              = Raise IndexError).
  { apply interpret_outcome. intros i Late Hi. lia. }
  split; [apply rsi_has_no_value_iff; intros i Late Hi; lia|].
  split; [exact R|]. split; [|reflexivity].
  unfold chart_section. now rewrite T, R.
Qed.

Lemma short_history_interpreter_raises_witness :
  has_value (f_rsi (calculate_indicators (rising 5))) = false
  /\ interpret_indicators (calculate_indicators (rising 5)) = Raise IndexError
  /\ chart_section (rising 5) = Raise IndexError
  /\ chart_section [] = Ok ChartUnavailable.
Proof.
  apply short_history_interpreter_raises; [reflexivity | simpl; lia].
Defined.

(** X7. On the frame built from a history of prices of ordinary size,
    [interpret_indicators] raises IndexError exactly when no price changes
    inside any 14-row window (in particular when the history has fewer
    than 14 points), and it emits its two signals exactly when some window
    holds a change. *)
Theorem interpret_raises_exactly_on_flat_history (prices : list (Z * Q)) :
  ordinary_prices prices = true ->
  (interpret_indicators (calculate_indicators prices) = Raise IndexError
   <-> forall i, 13 <= i -> i < length prices -> flat_window prices i)
  /\ ((exists summary,
          interpret_indicators (calculate_indicators prices) = Ok summary)
      <-> exists i, 13 <= i /\ i < length prices /\ ~ flat_window prices i).
Proof. intros _. apply interpret_outcome. Qed.

Lemma interpret_raises_exactly_on_flat_history_witness :
  (interpret_indicators (calculate_indicators (zigzag 14)) = Raise IndexError
   <-> forall i, 13 <= i -> i < length (zigzag 14) ->
                 flat_window (zigzag 14) i)
  /\ ((exists summary,
          interpret_indicators (calculate_indicators (zigzag 14)) = Ok summary)
      <-> exists i, 13 <= i /\ i < length (zigzag 14)
                    /\ ~ flat_window (zigzag 14) i).
Proof.
  apply interpret_raises_exactly_on_flat_history. vm_compute. reflexivity.
Defined.

(** ** Bounds on the moving averages *)

Lemma within_weaken (a b a' b' : Q) (x : fval) :
  (a' <= a)%Q -> (b <= b')%Q -> within a b x -> within a' b' x.
Proof. destruct x; simpl; intros; try contradiction; lra. Qed.

Lemma within_fadd (a b c d : Q) (x y : fval) :
  within a b x -> within c d y -> within (a + c) (b + d) (fadd x y).
Proof. destruct x, y; simpl; intros; try contradiction; lra. Qed.

Lemma within_fneg (a b : Q) (x : fval) :
  within a b x -> within (- b) (- a) (fneg x).
Proof.
  destruct x as [q| | |]; simpl; intros H; try contradiction; [|lra].
  destruct (Qeq_bool q 0) eqn:E; simpl; [|lra].
  apply Qeq_bool_eq in E. lra.
Qed.

Lemma within_fsub (a b c d : Q) (x y : fval) :
  within a b x -> within c d y -> within (a - d) (b - c) (fsub x y).
Proof.
  intros Hx Hy. unfold fsub.
  eapply within_weaken; [| |apply (within_fadd _ _ _ _ _ _ Hx (within_fneg _ _ _ Hy))];
    lra.
Qed.

Lemma within_zero (a b : Q) (s : bool) :
  (a <= 0)%Q -> (0 <= b)%Q -> within a b (zero s).
Proof. destruct s; simpl; lra. Qed.

Lemma within_scale (k a b : Q) (x : fval) :
  (0 <= k)%Q -> within a b x -> within (k * a) (k * b) (fmul (Fin k) x).
Proof.
  intros K. destruct x as [q| | |]; simpl; intros H; try contradiction.
  - destruct (Qeq_bool k 0) eqn:Ek; simpl.
    + apply Qeq_bool_eq in Ek. apply within_zero; nra.
    + destruct (Qeq_bool q 0) eqn:Eq; simpl.
      * apply Qeq_bool_eq in Eq. apply within_zero; nra.
      * nra.
  - rewrite orb_true_r. apply within_zero; nra.
Qed.

Lemma within_ewm_step (alpha lo hi : Q) (prev x : fval) :
  (0 <= alpha)%Q -> (alpha <= 1)%Q ->
  within lo hi prev -> within lo hi x ->
  within lo hi (fadd (fmul (Fin (1 - alpha)) prev) (fmul (Fin alpha) x)).
Proof.
  intros A0 A1 Hp Hx.
  eapply within_weaken;
    [| |apply within_fadd; apply within_scale; [| exact Hp | | exact Hx]];
    lra.
Qed.

Lemma within_ewm_from (alpha lo hi : Q) (s : series) :
  (0 <= alpha)%Q -> (alpha <= 1)%Q ->
  Forall (within lo hi) s ->
  forall prev, within lo hi prev ->
  Forall (within lo hi) (ewm_from alpha prev s).
Proof.
  intros A0 A1. induction 1 as [|x s Hx _ IH]; intros prev Hp;
    cbn [ewm_from]; constructor.
  - now apply within_ewm_step.
  - apply IH. now apply within_ewm_step.
Qed.

Lemma alpha_range (span : nat) :
  let alpha := (2 / inject_Z (Z.of_nat (span + 1)))%Q in
  1 <= span -> (0 <= alpha)%Q /\ (alpha <= 1)%Q.
Proof.
  intros alpha H. subst alpha.
  assert (P : (2 <= inject_Z (Z.of_nat (span + 1)))%Q).
  { change 2%Q with (inject_Z 2). rewrite <- Zle_Qle. lia. }
  split.
  - apply Qle_shift_div_l; lra.
  - apply Qle_shift_div_r; lra.
Qed.

Lemma within_ewm_mean (span : nat) (lo hi : Q) (s : series) :
  1 <= span ->
  Forall (within lo hi) s -> Forall (within lo hi) (ewm_mean span s).
Proof.
  intros S [|x s' Hx H]; simpl; constructor; [assumption|].
  destruct (alpha_range span S) as [A0 A1].
  now apply within_ewm_from.
Qed.

Lemma within_zip_fsub (a b c d : Q) (s : series) :
  Forall (within a b) s ->
  forall t, Forall (within c d) t ->
  Forall (within (a - d) (b - c)) (zip_with fsub s t).
Proof.
  induction 1 as [|x s Hx _ IH]; intros t Ht; simpl; [constructor|].
  destruct Ht as [|y t Hy Ht]; constructor.
  - now apply within_fsub.
  - now apply IH.
Qed.

Lemma macd_signal_within (prices : list (Z * Q)) (lo hi : Q) :
  (forall p, In p prices -> (lo <= snd p)%Q /\ (snd p <= hi)%Q) ->
  Forall (within (lo - hi) (hi - lo)) (f_macd (calculate_indicators prices))
  /\ Forall (within (lo - hi) (hi - lo))
            (f_signal (calculate_indicators prices)).
Proof.
  intros H.
  assert (P : Forall (within lo hi) (map (fun p => Fin (snd p)) prices)).
  { apply Forall_map, Forall_forall. intros p Hp. simpl. now apply H. }
  assert (M : Forall (within (lo - hi) (hi - lo))
                     (f_macd (calculate_indicators prices))).
  { simpl. apply within_zip_fsub; apply within_ewm_mean; (lia || exact P). }
  split; [exact M|].
  change (f_signal (calculate_indicators prices))
    with (ewm_mean 9 (f_macd (calculate_indicators prices))).
  apply within_ewm_mean; [lia | exact M].
Qed.

(** X8. When every price of the history lies between [lo] and [hi], every
    MACD value and every Signal value lies between [lo - hi] and
    [hi - lo]: the moving averages never leave the range of the prices. *)
Theorem macd_bounded_by_price_range (prices : list (Z * Q)) (lo hi : Q) :
  (forall p, In p prices -> (lo <= snd p)%Q /\ (snd p <= hi)%Q) ->
  Forall (within (lo - hi) (hi - lo)) (f_macd (calculate_indicators prices))
  /\ Forall (within (lo - hi) (hi - lo))
            (f_signal (calculate_indicators prices)).
Proof. apply macd_signal_within. Qed.

Lemma within_point_is_zero (c : Q) (s : series) :
  Forall (within (c - c) (c - c)) s -> Forall (fun x => equals x 0) s.
Proof.
  apply Forall_impl. intros x. destruct x; simpl; intros H;
    try contradiction; lra.
Qed.

Lemma constant_windows_flat (prices : list (Z * Q)) (c : Q) :
  (forall p, In p prices -> (snd p == c)%Q) ->
  forall i, flat_window prices i.
Proof.
  intros H i [|j] _ _; [exact I|]. unfold same_as_before.
  destruct (nth_error prices j) as [a|] eqn:Ea; [|exact I].
  destruct (nth_error prices (S j)) as [b|] eqn:Eb; [|exact I].
  apply nth_error_In in Ea, Eb. rewrite (H a Ea), (H b Eb). reflexivity.
Qed.

(** X9. On a history whose prices are all equal, of any length, MACD and
    Signal are zero in every row, the RSI column holds no value, and
    [interpret_indicators] raises IndexError. *)
Theorem constant_history_gives_no_verdict (prices : list (Z * Q)) (c : Q) :
  (forall p, In p prices -> (snd p == c)%Q) ->
  Forall (fun x => equals x 0) (f_macd (calculate_indicators prices))
  /\ Forall (fun x => equals x 0) (f_signal (calculate_indicators prices))
  /\ has_value (f_rsi (calculate_indicators prices)) = false
  /\ interpret_indicators (calculate_indicators prices) = Raise IndexError.
Proof.
  intros H.
  destruct (macd_signal_within prices c c) as [M S].
  { intros p Hp. rewrite (H p Hp). split; lra. }
  split; [now apply (within_point_is_zero c)|].
  split; [now apply (within_point_is_zero c)|].
  assert (R : has_value (f_rsi (calculate_indicators prices)) = false).
  { apply rsi_has_no_value_iff. intros i _ _.
    now apply (constant_windows_flat prices c). }
  split; [exact R|]. apply iloc_last_raises_iff in R.
  unfold interpret_indicators. now rewrite R.
Qed.

Lemma constant_history_gives_no_verdict_witness :
  Forall (fun x => equals x 0) (f_macd (calculate_indicators (flat 20)))
  /\ Forall (fun x => equals x 0) (f_signal (calculate_indicators (flat 20)))
  /\ has_value (f_rsi (calculate_indicators (flat 20))) = false
  /\ interpret_indicators (calculate_indicators (flat 20)) = Raise IndexError.
Proof.
  apply (constant_history_gives_no_verdict (flat 20) 1).
  intros p Hp. unfold flat in Hp. apply in_map_iff in Hp as [i [<- _]].
  reflexivity.
Defined.

Lemma macd_bounded_by_price_range_witness :
  Forall (within (0 - 14) (14 - 0)) (f_macd (calculate_indicators (rising 15)))
  /\ Forall (within (0 - 14) (14 - 0))
            (f_signal (calculate_indicators (rising 15))).
Proof.
  apply macd_bounded_by_price_range. intros p Hp. unfold rising in Hp.
  apply in_map_iff in Hp as [i [<- Hi]]. apply in_seq in Hi. simpl.
  split.
  - change 0%Q with (inject_Z 0). rewrite <- Zle_Qle. lia.
  - change 14%Q with (inject_Z 14). rewrite <- Zle_Qle. lia.
Defined.

(** ** Interpreter rules *)

Lemma fgt_fin (a b : Q) : fgt (Fin a) (Fin b) = true <-> (b < a)%Q.
Proof.
  unfold fgt, fcompare, mag. rewrite Qgt_alt.
  destruct (a ?= b)%Q; split; congruence.
Qed.

Lemma flt_fin (a b : Q) : flt (Fin a) (Fin b) = true <-> (a < b)%Q.
Proof.
  unfold flt, fcompare, mag. rewrite Qlt_alt.
  destruct (a ?= b)%Q; split; congruence.
Qed.

(** X10. The RSI verdict is overbought exactly above 70, oversold exactly
    below 30 and neutral from 30 to 70, both ends included; the MACD
    verdict is bullish exactly when MACD is above Signal, bearish exactly
    when it is below, and sideways exactly when the two are equal. *)
Theorem interpreter_thresholds (rsi macd signal : Q) :
  (rsi_rule (Fin rsi) = Overbought <-> (70 < rsi)%Q)
  /\ (rsi_rule (Fin rsi) = Oversold <-> (rsi < 30)%Q)
  /\ (rsi_rule (Fin rsi) = RsiNeutral <-> (30 <= rsi)%Q /\ (rsi <= 70)%Q)
  /\ (macd_rule (Fin macd) (Fin signal) = Bullish <-> (signal < macd)%Q)
  /\ (macd_rule (Fin macd) (Fin signal) = Bearish <-> (macd < signal)%Q)
  /\ (macd_rule (Fin macd) (Fin signal) = Sideways <-> (macd == signal)%Q).
Proof.
  unfold rsi_rule, macd_rule.
  destruct (fgt (Fin rsi) (Fin 70)) eqn:G1, (flt (Fin rsi) (Fin 30)) eqn:L1,
           (fgt (Fin macd) (Fin signal)) eqn:G2,
           (flt (Fin macd) (Fin signal)) eqn:L2;
    try (apply fgt_fin in G1); try (apply flt_fin in L1);
    try (apply fgt_fin in G2); try (apply flt_fin in L2);
    try (assert (~ (70 < rsi)%Q)
           by (intros X; apply fgt_fin in X; congruence); clear G1);
    try (assert (~ (rsi < 30)%Q)
           by (intros X; apply flt_fin in X; congruence); clear L1);
    try (assert (~ (signal < macd)%Q)
           by (intros X; apply fgt_fin in X; congruence); clear G2);
    try (assert (~ (macd < signal)%Q)
           by (intros X; apply flt_fin in X; congruence); clear L2);
    repeat split; intros; try discriminate; try reflexivity; try lra.
Qed.

(** ** The RSI value *)




(** ** The latest value of a column *)

Lemma dropna_app (a b : series) : dropna (a ++ b) = dropna a ++ dropna b.
Proof. apply filter_app. Qed.

Lemma dropna_all_nan (s : series) : forallb is_nan s = true -> dropna s = [].
Proof.
  induction s as [|x s IH]; simpl; [reflexivity|]. intros H.
  apply andb_true_iff in H as [Hx Hs]. rewrite Hx. simpl. now apply IH.
Qed.

Lemma iloc_last_latest (s : series) (x : fval) :
  iloc_last (dropna s) = Ok x <-> latest s x.
Proof.
  split.
  - induction s as [|y s IH] using rev_ind; [discriminate|].
    rewrite dropna_app. simpl. destruct (is_nan y) eqn:N; simpl.
    + rewrite app_nil_r. intros H. destruct (IH H) as [b [a [E [Nx A]]]].
      exists b, (a ++ [y]). split; [|split; [exact Nx|]].
      * rewrite E, <- app_assoc. reflexivity.
      * rewrite forallb_app, A. simpl. now rewrite N.
    + unfold iloc_last. rewrite rev_app_distr. simpl. intros H.
      injection H as <-. now exists s, [].
  - intros [b [a [-> [Nx A]]]]. rewrite dropna_app. simpl. rewrite Nx. simpl.
    rewrite (dropna_all_nan a A). unfold iloc_last.
    rewrite rev_app_distr. reflexivity.
Qed.

(** X12. [interpret_indicators] succeeds exactly when each of the three
    columns has a last value that is not missing, and its verdicts are
    those of these three values: rows after them, where the column is
    missing, are passed over. *)
Theorem interpret_reads_latest_values (df : frame)
    (summary : rsi_signal * macd_signal) :
  interpret_indicators df = Ok summary
  <-> exists latest_rsi latest_macd latest_signal,
        latest (f_rsi df) latest_rsi
        /\ latest (f_macd df) latest_macd
        /\ latest (f_signal df) latest_signal
        /\ summary
           = (rsi_rule latest_rsi, macd_rule latest_macd latest_signal).
Proof.
  unfold interpret_indicators. split.
  - destruct (iloc_last (dropna (f_rsi df))) as [r|] eqn:Er; [|discriminate].
    destruct (iloc_last (dropna (f_macd df))) as [m|] eqn:Em; [|discriminate].
    destruct (iloc_last (dropna (f_signal df))) as [g|] eqn:Eg;
      [|discriminate].
    simpl. intros H. injection H as <-. exists r, m, g.
    repeat split; now apply iloc_last_latest.
  - intros [r [m [g [Hr [Hm [Hg ->]]]]]].
    apply iloc_last_latest in Hr, Hm, Hg. now rewrite Hr, Hm, Hg.
Qed.

(** X13. Every column of the frame, and its index, has one row per input
    pair, for every input, the empty one included. *)
Theorem frame_columns_aligned (prices : list (Z * Q)) :
  let df := calculate_indicators prices in
  length (f_index df) = length prices
  /\ length (f_timestamp df) = length prices
  /\ length (f_price df) = length prices
  /\ length (f_rsi df) = length prices
  /\ length (f_macd df) = length prices
  /\ length (f_signal df) = length prices.
Proof.
  intros df. subst df. repeat split.
  - simpl. now rewrite !length_map.
  - simpl. now rewrite length_map.
  - simpl. now rewrite length_map.
  - apply length_rsi.
  - apply length_macd.
  - apply length_signal.
Qed.

(** ** The resolver *)

Section Resolver.

Variable coins_list : list coin.

Lemma str_eqb_false (a b : str) : str_eqb a b = false <-> a <> b.
Proof.
  split.
  - intros F E. apply str_eqb_eq in E. congruence.
  - intros N. destruct (str_eqb a b) eqn:E; [|reflexivity].
    apply str_eqb_eq in E. contradiction.
Qed.

Lemma find_id_none (p : coin -> bool) :
  find_id coins_list p = None <-> forall c, In c coins_list -> p c = false.
Proof.
  unfold find_id. split.
  - destruct (find p coins_list) eqn:F; [discriminate|]. intros _.
    now apply find_none.
  - intros H. destruct (find p coins_list) as [c|] eqn:F; [|reflexivity].
    apply find_some in F as [Hc Pc]. rewrite (H c Hc) in Pc. discriminate.
Qed.

Lemma find_id_some (p : coin -> bool) (id : str) :
  find_id coins_list p = Some id ->
  exists c, In c coins_list /\ p c = true /\ c_id c = id.
Proof.
  unfold find_id. destruct (find p coins_list) as [c|] eqn:F; [|discriminate].
  intros H. injection H as <-. apply find_some in F as [Hc Pc]. now exists c.
Qed.

(** X14. [resolve_crypto_id] returns nothing exactly when the lowercased,
    stripped input is no key of the priority map and no coin of the
    catalogue has it as its lowercased symbol, id or name. *)
Theorem resolve_crypto_id_none_iff (user_input : str) :
  resolve_crypto_id coins_list user_input = None
  <-> dict_get (query_of user_input) PRIORITY_IDS = None
      /\ forall c, In c coins_list ->
                   ~ symbol_is (query_of user_input) c
                   /\ ~ id_or_name_is (query_of user_input) c.
Proof.
  unfold resolve_crypto_id, symbol_is, id_or_name_is. fold (query_of user_input).
  set (q := query_of user_input).
  destruct (dict_get q PRIORITY_IDS) as [id|];
    [split; [discriminate | intros [F _]; discriminate]|].
  destruct (find_id coins_list (fun c => str_eqb (lower (c_symbol c)) q))
    as [id|] eqn:S.
  - split; [discriminate|]. intros [_ H].
    apply find_id_some in S as [c [Hc [Pc _]]]. apply str_eqb_eq in Pc.
    now destruct (H c Hc) as [N _].
  - rewrite find_id_none. rewrite find_id_none in S. split.
    + intros H. split; [reflexivity|]. intros c Hc. split.
      * apply str_eqb_false. now apply S.
      * specialize (H c Hc). apply orb_false_iff in H as [H1 H2].
        apply str_eqb_false in H1, H2. tauto.
    + intros [_ H] c Hc. destruct (H c Hc) as [_ N].
      apply orb_false_iff. split; apply str_eqb_false; tauto.
Qed.

(** X15. An id that [resolve_crypto_id] returns is the priority id of the
    query; or else, the query being no priority key, the id of a coin of
    the catalogue whose symbol is the query; or else, no coin having that
    symbol, the id of a coin whose id or name is the query. *)
Theorem resolve_crypto_id_order (user_input id : str) :
  resolve_crypto_id coins_list user_input = Some id ->
  dict_get (query_of user_input) PRIORITY_IDS = Some id
  \/ (dict_get (query_of user_input) PRIORITY_IDS = None
      /\ exists c, In c coins_list /\ c_id c = id
           /\ (symbol_is (query_of user_input) c
               \/ (id_or_name_is (query_of user_input) c
                   /\ forall c', In c' coins_list ->
                                 ~ symbol_is (query_of user_input) c'))).
Proof.
  unfold resolve_crypto_id, symbol_is, id_or_name_is. fold (query_of user_input).
  set (q := query_of user_input).
  destruct (dict_get q PRIORITY_IDS) as [id'|]; [intros H; now left|].
  intros H. right. split; [reflexivity|].
  destruct (find_id coins_list (fun c => str_eqb (lower (c_symbol c)) q))
    as [id'|] eqn:S.
  - injection H as <-. apply find_id_some in S as [c [Hc [Pc E]]].
    apply str_eqb_eq in Pc. exists c. tauto.
  - apply find_id_some in H as [c [Hc [Pc E]]].
    apply orb_true_iff in Pc. rewrite !str_eqb_eq in Pc.
    exists c. split; [exact Hc|]. split; [exact E|]. right.
    split; [exact Pc|]. intros c' Hc'. rewrite find_id_none in S.
    apply str_eqb_false. now apply S.
Qed.

End Resolver.

Lemma resolve_crypto_id_order_witness :
  dict_get (query_of (lit " zzz ")) PRIORITY_IDS = Some (lit "zzz-token")
  \/ (dict_get (query_of (lit " zzz ")) PRIORITY_IDS = None
      /\ exists c, In c sample_coins /\ c_id c = lit "zzz-token"
           /\ (symbol_is (query_of (lit " zzz ")) c
               \/ (id_or_name_is (query_of (lit " zzz ")) c
                   /\ forall c', In c' sample_coins ->
                                 ~ symbol_is (query_of (lit " zzz ")) c'))).
Proof. apply resolve_crypto_id_order. reflexivity. Defined.

(** ** The script as a whole *)

Section Script.

Variable feedparser_parse : str -> list entry.
Variable sentiment_model : str -> option (str * Q).
Variable coins_list : list coin.
Variable get_crypto_price : str -> option (Q * Q).
Variable get_crypto_chart : str -> list (Z * Q).
Variable get_coin_metadata : str -> str * str.

Lemma scored_at_most_five (coin_name ticker : str) :
  length (analyze_sentiment sentiment_model
            (fetch_crypto_news feedparser_parse coin_name ticker)) <= 5.
Proof.
  rewrite analyze_sentiment_map, length_map, fetch_crypto_news_pool.
  rewrite length_firstn. lia.
Qed.

Lemma chart_section_raises (chart_data : list (Z * Q)) :
  chart_section chart_data = Raise IndexError
  <-> truthy chart_data = true
      /\ forall i, 13 <= i -> i < length chart_data ->
                   flat_window chart_data i.
Proof.
  unfold chart_section. destruct (truthy chart_data).
  - destruct (interpret_outcome chart_data) as [R _].
    rewrite <- R.
    destruct (interpret_indicators (calculate_indicators chart_data)) as [s|[]];
      simpl; split; try discriminate; try tauto.
    intros [_ H]. discriminate.
  - split; [discriminate | intros [F _]; discriminate].
Qed.

(** X16. When the typed ticker resolves to a non-empty id whose chart data
    is not empty and holds no price change inside any 14-row window (so
    also when it has fewer than 14 points), the run ends in the IndexError
    of [interpret_indicators], before any news is fetched. *)
Theorem app_raises_on_flat_chart (ticker_input symbol_id : str) :
  truthy ticker_input = true ->
  resolve_crypto_id coins_list ticker_input = Some symbol_id ->
  truthy symbol_id = true ->
  truthy (get_crypto_chart symbol_id) = true ->
  (forall i, 13 <= i -> i < length (get_crypto_chart symbol_id) ->
             flat_window (get_crypto_chart symbol_id) i) ->
  app feedparser_parse sentiment_model coins_list get_crypto_price
      get_crypto_chart get_coin_metadata ticker_input = Raise IndexError.
Proof.
  intros T R S C F. unfold app. rewrite T, R.
  destruct symbol_id as [|c id]; [discriminate|].
  assert (E : chart_section (get_crypto_chart (c :: id)) = Raise IndexError)
    by (apply chart_section_raises; now split).
  now rewrite E.
Qed.

(** X17. A run that completes shows at most five scored headlines, and
    the snapshot shows a news list only when it holds at least one. *)
Theorem app_scores_at_most_five (ticker_input : str) (shown : page) :
  app feedparser_parse sentiment_model coins_list get_crypto_price
      get_crypto_chart get_coin_metadata ticker_input = Ok shown ->
  length (page_rows shown) <= 5
  /\ match shown with
     | Snapshot _ _ (NewsShown rows) => 1 <= length rows
     | _ => True
     end.
Proof.
  unfold app. destruct (truthy ticker_input);
    [|intros H; injection H as <-; simpl; split; [lia | exact I]].
  destruct (resolve_crypto_id coins_list ticker_input) as [[|c id]|].
  - intros H. injection H as <-. simpl. split; [|exact I].
    apply scored_at_most_five.
  - destruct (chart_section (get_crypto_chart (c :: id))) as [v|e'];
      [|discriminate].
    simpl. intros H. injection H as <-. unfold news_section.
    set (headlines := fetch_crypto_news feedparser_parse
                        (fst (get_coin_metadata (c :: id))) ticker_input).
    destruct headlines as [|h hs] eqn:E; simpl; [split; [lia | exact I]|].
    rewrite <- E. split; [apply scored_at_most_five|].
    rewrite analyze_sentiment_map, length_map. subst headlines.
    rewrite E. simpl. lia.
  - intros H. injection H as <-. simpl. split; [|exact I].
    apply scored_at_most_five.
Qed.

End Script.

Lemma app_raises_on_flat_chart_witness :
  app busy_feed labelling_model [] usd_cad_price flat_chart bitcoin_metadata
      (lit "btc") = Raise IndexError.
Proof.
  apply (app_raises_on_flat_chart busy_feed labelling_model [] usd_cad_price
           flat_chart bitcoin_metadata (lit "btc") (lit "bitcoin"));
    try (vm_compute; reflexivity).
  intros i _ _. apply (constant_windows_flat (flat 20) 1).
  intros p Hp. unfold flat in Hp. apply in_map_iff in Hp as [k [<- _]].
  reflexivity.
Defined.

Lemma app_scores_at_most_five_witness :
  length (page_rows busy_page) <= 5
  /\ match busy_page with
     | Snapshot _ _ (NewsShown rows) => 1 <= length rows
     | _ => True
     end.
Proof.
  apply (app_scores_at_most_five busy_feed labelling_model [] usd_cad_price
           zigzag_chart bitcoin_metadata (lit "btc") busy_page).
  vm_compute. reflexivity.
Defined.
